(** * stepwise: the StopClock timer and the Stepper engine

    A shallow embedding of [src/StopClock.js] and [src/Stepper.js].

    JavaScript values are modelled by the type [value]; numbers are the
    integer-valued doubles (every reading of [Date.now()] is one) together
    with [NaN] and the two infinities.  Reading the wall clock is an effect:
    the [n]-th call of [Date.now()] returns [wall n], and every function that
    reads the clock threads the number of readings made so far. *)

From stdpp Require Import base numbers list strings gmap.
From Stdlib Require Import ZArith Lia.

Local Open Scope Z_scope.

(** ** JavaScript values *)

(** Object identities: two objects are the same object when their
    references are equal. *)
Abbreviation loc := nat (only parsing).

Inductive number :=
| Fin (z : Z)
| NaN
| Infinity
| NegInfinity.

Inductive value :=
| Undefined
| Null
| Bool (b : bool)
| Num (n : number)
| Str (s : string)
| Obj (l : loc).

Global Instance number_eq_dec : EqDecision number.
Proof. solve_decision. Defined.

Global Instance value_eq_dec : EqDecision value.
Proof. solve_decision. Defined.

(** [ToBoolean]: what [if (v)], [v || w] and [v && w] test. *)
Definition truthy (v : value) : bool :=
  match v with
  | Undefined | Null => false
  | Bool b => b
  | Num (Fin z) => negb (z =? 0)
  | Num NaN => false
  | Num _ => true
  | Str s => negb (String.eqb s "")
  | Obj _ => true
  end.

(** [a || b] *)
Definition js_or (a b : value) : value := if truthy a then a else b.

(** [a - b] on numbers. *)
Definition num_sub (a b : number) : number :=
  match a, b with
  | Fin x, Fin y => Fin (x - y)
  | NaN, _ | _, NaN => NaN
  | Infinity, Infinity | NegInfinity, NegInfinity => NaN
  | Infinity, _ => Infinity
  | NegInfinity, _ => NegInfinity
  | Fin _, Infinity => NegInfinity
  | Fin _, NegInfinity => Infinity
  end.

(** [x === y] on numbers: [NaN] equals nothing. *)
Definition num_eqb (a b : number) : bool :=
  match a, b with
  | Fin x, Fin y => x =? y
  | Infinity, Infinity | NegInfinity, NegInfinity => true
  | _, _ => false
  end.

(** [a == b], the loose equality.  [StringToNumber] and the [ToPrimitive]
    conversion of objects are not part of this repository; they are the
    parameters [str_num] and [to_prim]. *)
Section LooseEquality.
Variable str_num : string -> number.
Variable to_prim : loc -> value.

Definition bool_num (b : bool) : number := if b then Fin 1 else Fin 0.

(** both sides primitive, neither a boolean *)
Definition loose_eq_base (a b : value) : bool :=
  match a, b with
  | (Undefined | Null), (Undefined | Null) => true
  | Num x, Num y => num_eqb x y
  | Str x, Str y => String.eqb x y
  | Num x, Str y => num_eqb x (str_num y)
  | Str x, Num y => num_eqb (str_num x) y
  | _, _ => false
  end.

(** both sides primitive: a boolean is compared as its number *)
Definition loose_eq_prim (a b : value) : bool :=
  match a, b with
  | Bool x, Bool y => Bool.eqb x y
  | Bool x, _ => loose_eq_base (Num (bool_num x)) b
  | _, Bool y => loose_eq_base a (Num (bool_num y))
  | _, _ => loose_eq_base a b
  end.

Definition loose_eq (a b : value) : bool :=
  match a, b with
  | Obj x, Obj y => Nat.eqb x y
  | Obj _, (Undefined | Null) | (Undefined | Null), Obj _ => false
  | Obj x, _ => loose_eq_prim (to_prim x) b
  | _, Obj y => loose_eq_prim a (to_prim y)
  | _, _ => loose_eq_prim a b
  end.
End LooseEquality.

(** ** The wall clock *)

Module Date.
(** [wall n] is what the [n]-th call of [Date.now()] returns; [ticks]
    counts the calls made so far. *)
Record t := { wall : nat -> Z; ticks : nat }.

Definition now (d : t) : Z * t :=
  (wall d (ticks d), {| wall := wall d; ticks := S (ticks d) |}).
End Date.

(** ** StopClock *)

Module Stop.
(** A recorded stop is [Object(Date.now())] with a [label] property:
    [valueOf] is the number the object wraps ([+stop]). *)
Record t := { valueOf : Z; label : value }.
End Stop.

Module Found.
(** What [findStop] returns for a match. *)
Record t := { valueOf : Z; stop : Z; start : Z; label : value; index : nat }.
End Found.

Module StopSummary.
Record t := { time : Z; delta : number; total : Z; label : value }.
End StopSummary.

Module Summary.
(** [stop] is the last recorded stop object itself, or [Infinity]. *)
Record t := {
  start : Z;
  stops : list StopSummary.t;
  stop : Stop.t + number;
  total : Z;
  sinceStart : Z
}.
End Summary.

Module StopClock.
Record t := { start : Z; stops : list Stop.t }.

(** [this.stops[this.stops.length - 1]]: [None] is [undefined]. *)
Definition last_stop (c : t) : option Stop.t := last (stops c).

(** [ToNumber] of an array read that may be [undefined]. *)
Definition to_number (o : option Stop.t) : number :=
  match o with
  | Some s => Fin (Stop.valueOf s)
  | None => NaN
  end.

(** [StopClock()] *)
Definition create (d : Date.t) : t * Date.t :=
  let '(n, d) := Date.now d in
  ({| start := n; stops := [] |}, d).

Definition reset (c : t) (d : Date.t) : t * Date.t :=
  let '(n, d) := Date.now d in
  ({| start := n; stops := [] |}, d).

Definition stop (lbl : value) (c : t) (d : Date.t) : Z * t * Date.t :=
  let '(now, d) := Date.now d in
  let last :=
    match last_stop c with
    | Some s => Stop.valueOf s
    | None => start c
    end in
  let time := now - last in
  let now := {| Stop.valueOf := now; Stop.label := js_or lbl Null |} in
  (time, {| start := start c; stops := stops c ++ [now] |}, d).

Definition time (c : t) (d : Date.t) : Z * Date.t :=
  match last_stop c with
  | Some s => (Stop.valueOf s - start c, d)
  | None => let '(n, d) := Date.now d in (n - start c, d)
  end.

Definition timeSinceLastStop (c : t) (d : Date.t) : number * Date.t :=
  match stops c with
  | _ :: _ => let '(r, d) := time c d in (Fin r, d)
  | [] =>
    let '(n, d) := Date.now d in
    (num_sub (Fin n) (to_number (last_stop c)), d)
  end.

Definition timeSinceStart (c : t) (d : Date.t) : Z * Date.t :=
  let '(n, d) := Date.now d in (n - start c, d).

Definition summary (c : t) (d : Date.t) : Summary.t * Date.t :=
  let stops' :=
    imap (fun index stop =>
            {| StopSummary.time := Stop.valueOf stop;
               StopSummary.delta :=
                 if Nat.eqb index 0 then Fin 0
                 else num_sub (Fin (Stop.valueOf stop))
                              (to_number (stops c !! (index - 1)%nat));
               StopSummary.total := Stop.valueOf stop - start c;
               StopSummary.label := Stop.label stop |})
         (stops c) in
  let stop' :=
    match last_stop c with
    | Some s => inl s
    | None => inr Infinity
    end in
  let '(total', d) := time c d in
  let '(since, d) := timeSinceStart c d in
  ({| Summary.start := start c;
      Summary.stops := stops';
      Summary.stop := stop';
      Summary.total := total';
      Summary.sinceStart := since |}, d).

Section FindStop.
Variable str_num : string -> number.
Variable to_prim : loc -> value.

(** one round of the reducer: [p] is the accumulator, [c] the stop at
    position [i] *)
Definition findStop_step (self : t) (lbl : value)
    (p : option Found.t) (i : nat) (c : Stop.t) : option Found.t :=
  match p with
  | Some _ => p
  | None =>
    if truthy (Stop.label c) && loose_eq str_num to_prim (Stop.label c) lbl
    then Some {| Found.valueOf := Stop.valueOf c;
                 Found.stop := Stop.valueOf c;
                 Found.start := start self;
                 Found.label := Stop.label c;
                 Found.index := i |}
    else None
  end.

Fixpoint reduce_from {A B} (f : B -> nat -> A -> B) (i : nat) (l : list A) (p : B) : B :=
  match l with
  | [] => p
  | c :: l => reduce_from f (S i) l (f p i c)
  end.

Definition findStop (lbl : value) (self : t) : option Found.t :=
  reduce_from (findStop_step self lbl) 0%nat (stops self) None.
End FindStop.
End StopClock.

(** ** Steps, Datasets and the store *)

(** What a call of a guard, a work function or the listeners of an event
    does: it completes normally with a value or throws one.  These callbacks
    are caller code: they act on the caller's own state, of an arbitrary type
    [H] (the objects the Context refers to live there), and they do not reach
    into the engine. *)
Inductive completion :=
| Return (v : value)
| Throw (e : value).

Module Step.
(** [self] is the identity of the Step object; a function receives its
    [this] and its arguments. *)
Definition fn (H : Type) : Type := value -> list value -> H -> completion * H.

Record t (H : Type) := {
  self : loc;
  name : value;
  proceed : fn H;
  step : fn H
}.
Global Arguments self {H} _.
Global Arguments name {H} _.
Global Arguments proceed {H} _.
Global Arguments step {H} _.
End Step.

Module Dataset.
Record t (H : Type) := {
  stopclock : StopClock.t;
  error : value;
  step : Step.t H;
  boundArgs : value
}.
Global Arguments stopclock {H} _.
Global Arguments error {H} _.
Global Arguments step {H} _.
Global Arguments boundArgs {H} _.

Definition set_stopclock {H} (c : StopClock.t) (d : t H) : t H :=
  {| stopclock := c; error := error d; step := step d; boundArgs := boundArgs d |}.

Definition set_error {H} (e : value) (d : t H) : t H :=
  {| stopclock := stopclock d; error := e; step := step d; boundArgs := boundArgs d |}.
End Dataset.

Inductive EventKind := STEP_STARTED | STEP_COMPLETED | STEP_FAILED.

Inductive CallKind := Guard | Work.

(** What an observer of a run sees, in order: the notifications emitted,
    with their [(error, step, stepData)] arguments, and the calls of guards
    and work functions, with their receiver, their arguments and how they
    completed. *)
Inductive Obs (H : Type) :=
| Emitted (k : EventKind) (err : value) (s : Step.t H) (d : Dataset.t H)
| Called (k : CallKind) (s : Step.t H) (this : value) (args : list value)
         (r : completion).
Global Arguments Emitted {H} _ _ _ _.
Global Arguments Called {H} _ _ _ _ _.

Module World.
(** The arrays are objects with an identity: [arrays] holds the arrays of
    plain values (the Context sequences), [steplists] the arrays of Steps
    and [datalists] the arrays of Datasets.  [user] is the state the
    callbacks act on, [date] the wall clock, [trace] what has been
    observed. *)
Record t (H : Type) := {
  arrays : gmap loc (list value);
  steplists : gmap loc (list (Step.t H));
  datalists : gmap loc (list (Dataset.t H));
  user : H;
  date : Date.t;
  trace : list (Obs H)
}.
Global Arguments arrays {H} _.
Global Arguments steplists {H} _.
Global Arguments datalists {H} _.
Global Arguments user {H} _.
Global Arguments date {H} _.
Global Arguments trace {H} _.

Section Ops.
Context {H : Type}.
Implicit Type w : t H.

Definition set_arrays (m : gmap loc (list value)) w : t H :=
  {| arrays := m; steplists := steplists w; datalists := datalists w;
     user := user w; date := date w; trace := trace w |}.
Definition set_steplists (m : gmap loc (list (Step.t H))) w : t H :=
  {| arrays := arrays w; steplists := m; datalists := datalists w;
     user := user w; date := date w; trace := trace w |}.
Definition set_datalists (m : gmap loc (list (Dataset.t H))) w : t H :=
  {| arrays := arrays w; steplists := steplists w; datalists := m;
     user := user w; date := date w; trace := trace w |}.
Definition set_user (h : H) w : t H :=
  {| arrays := arrays w; steplists := steplists w; datalists := datalists w;
     user := h; date := date w; trace := trace w |}.
Definition set_date (d : Date.t) w : t H :=
  {| arrays := arrays w; steplists := steplists w; datalists := datalists w;
     user := user w; date := d; trace := trace w |}.
Definition observe (o : Obs H) w : t H :=
  {| arrays := arrays w; steplists := steplists w; datalists := datalists w;
     user := user w; date := date w; trace := trace w ++ [o] |}.

(** a new array literal: a reference no array of the store has *)
Definition new_array (l : list value) w : loc * t H :=
  let r := fresh (dom (arrays w)) in (r, set_arrays (<[r:=l]> (arrays w)) w).
Definition new_steplist (l : list (Step.t H)) w : loc * t H :=
  let r := fresh (dom (steplists w)) in (r, set_steplists (<[r:=l]> (steplists w)) w).
Definition new_datalist (l : list (Dataset.t H)) w : loc * t H :=
  let r := fresh (dom (datalists w)) in (r, set_datalists (<[r:=l]> (datalists w)) w).

(** the elements of an array *)
Definition array w (r : loc) : list value := default [] (arrays w !! r).
Definition steplist w (r : loc) : list (Step.t H) := default [] (steplists w !! r).
Definition datalist w (r : loc) : list (Dataset.t H) := default [] (datalists w !! r).

(** [Array.isArray(v)], with the reference of the array *)
Definition isArray w (v : value) : option loc :=
  match v with
  | Obj r => if decide (is_Some (arrays w !! r)) then Some r else None
  | _ => None
  end.

(** [a.push(x)] on an array of Datasets *)
Definition push_data (r : loc) (x : Dataset.t H) w : t H :=
  set_datalists (<[r := datalist w r ++ [x]]> (datalists w)) w.

(** [a.push(x)] on an array of Steps *)
Definition push_step (r : loc) (x : Step.t H) w : t H :=
  set_steplists (<[r := steplist w r ++ [x]]> (steplists w)) w.

(** [a.push(x)] on an array of values *)
Definition push_value (r : loc) (x : value) w : t H :=
  set_arrays (<[r := array w r ++ [x]]> (arrays w)) w.

End Ops.
End World.

(** ** Stepper *)

(** [EventEmitter] is not part of this repository.  For listeners [ls],
    [ls k err step stepData] is what the listeners registered for the event
    [k] do together when they are called with these arguments: [Some e] when
    one of them throws [e]. *)
Abbreviation Listeners H :=
  (EventKind -> value -> Step.t H -> Dataset.t H -> H -> option value * H).

Module Results.
(** [data] is a reference: the getter stores [this[SDATA]] itself. *)
Record t := {
  stepped : bool;
  timing : Summary.t;
  totalTime : Z;
  hasErrors : bool;
  errors : list value;
  data : loc
}.
End Results.

Module Stepper.
(** The engine object.  [OARGS], [BARGS], [STEPS] and [SDATA] hold
    references to arrays of the store. *)
Record t := {
  OARGS : loc;
  BARGS : loc;
  SDATA : loc;
  STEPS : loc;
  TTIME : StopClock.t;
  hasStepped : bool
}.

Definition set_TTIME (c : StopClock.t) (this : t) : t :=
  {| OARGS := OARGS this; BARGS := BARGS this; SDATA := SDATA this;
     STEPS := STEPS this; TTIME := c; hasStepped := hasStepped this |}.

Definition set_hasStepped (b : bool) (this : t) : t :=
  {| OARGS := OARGS this; BARGS := BARGS this; SDATA := SDATA this;
     STEPS := STEPS this; TTIME := TTIME this; hasStepped := b |}.

Section Engine.
Context {H : Type}.

Variable listeners : Listeners H.

Implicit Type w : World.t H.

(** [this.emit(k, err, step, stepData)] *)
Definition emit (k : EventKind) (err : value) (step : Step.t H)
    (stepData : Dataset.t H) w : option value * World.t H :=
  let w := World.observe (Emitted k err step stepData) w in
  let '(r, h) := listeners k err step stepData (World.user w) in
  (r, World.set_user h w).

(** a call of [step.proceed] or [step.step] *)
Definition call (k : CallKind) (step : Step.t H) (f : Step.fn H)
    (thisArg : value) (args : list value) w : completion * World.t H :=
  let '(r, h) := f thisArg args (World.user w) in
  (r, World.observe (Called k step thisArg args r) (World.set_user h w)).

(** [Stepper.Dataset(step)] *)
Definition Dataset (step : Step.t H) w : Dataset.t H * World.t H :=
  let '(c, d) := StopClock.create (World.date w) in
  ({| Dataset.stopclock := c; Dataset.error := Null;
      Dataset.step := step; Dataset.boundArgs := Undefined |},
   World.set_date d w).

(** [stepData.stopclock.reset()] *)
Definition stopclock_reset (stepData : Dataset.t H) w : Dataset.t H * World.t H :=
  let '(c, d) := StopClock.reset (Dataset.stopclock stepData) (World.date w) in
  (Dataset.set_stopclock c stepData, World.set_date d w).

(** [stepData.stopclock.stop()] *)
Definition stopclock_stop (stepData : Dataset.t H) w : Dataset.t H * World.t H :=
  let '(_, c, d) := StopClock.stop Undefined (Dataset.stopclock stepData) (World.date w) in
  (Dataset.set_stopclock c stepData, World.set_date d w).

(** [this[TTIME].stop()] *)
Definition TTIME_stop (this : t) w : t * World.t H :=
  let '(_, c, d) := StopClock.stop Undefined (TTIME this) (World.date w) in
  (set_TTIME c this, World.set_date d w).

(** The body of the [try]: the Dataset as it is when the block is left,
    and the value thrown if it is left by a throw. *)
Definition try_block (this : t) (thisArg : value) (boundArgs : list value)
    (step : Step.t H) (stepData : Dataset.t H) w
  : Dataset.t H * option value * World.t H :=
  match emit STEP_STARTED Null step stepData w with
  | (Some error, w) => (stepData, Some error, w)
  | (None, w) =>
    let '(stepData, w) := stopclock_reset stepData w in
    match call Guard step (Step.proceed step) thisArg
               (World.array w (BARGS this)) w with
    | (Throw error, w) => (stepData, Some error, w)
    | (Return doIt, w) =>
      let '(stepData, w) := stopclock_stop stepData w in
      match (if truthy doIt
             then call Work step (Step.step step) thisArg boundArgs w
             else (Return Undefined, w)) with
      | (Throw error, w) => (stepData, Some error, w)
      | (Return _, w) =>
        let '(stepData, w) := stopclock_stop stepData w in
        match emit STEP_COMPLETED Null step stepData w with
        | (Some error, w) => (stepData, Some error, w)
        | (None, w) =>
          (stepData, None, World.push_data (SDATA this) stepData w)
        end
      end
    end
  end.

(** One round of the loop of [startSteppin].  [Some e] when [e] leaves
    the loop body uncaught. *)
Definition turn (altContext : value) (step : Step.t H) (this : t) w
  : option value * t * World.t H :=
  let '(stepData, w) := Dataset step w in
  let thisArg := js_or altContext (Obj (Step.self step)) in
  let boundArgs := World.array w (BARGS this) in
  match try_block this thisArg boundArgs step stepData w with
  | (_, None, w) =>
    let '(this, w) := TTIME_stop this w in (None, this, w)
  | (stepData, Some error, w) =>
    let '(stepData, w) := stopclock_stop stepData w in
    let stepData := Dataset.set_error error stepData in
    match emit STEP_FAILED error step stepData w with
    | (Some e, w) => (Some e, this, w)
    | (None, w) =>
      let w := World.push_data (SDATA this) stepData w in
      let '(this, w) := TTIME_stop this w in (None, this, w)
    end
  end.

(** [for (let step of this[STEPS]) { ... }] *)
Fixpoint loop (altContext : value) (steps : list (Step.t H)) (this : t) w
  : option value * t * World.t H :=
  match steps with
  | [] => (None, this, w)
  | step :: steps =>
    match turn altContext step this w with
    | (Some e, this, w) => (Some e, this, w)
    | (None, this, w) => loop altContext steps this w
    end
  end.

(** [get results()] *)
Definition results (this : t) w : Results.t * World.t H :=
  let '(timing, d) := StopClock.summary (TTIME this) (World.date w) in
  let '(totalTime, d) := StopClock.time (TTIME this) d in
  let sdata := World.datalist w (SDATA this) in
  ({| Results.stepped := hasStepped this;
      Results.timing := timing;
      Results.totalTime := totalTime;
      Results.hasErrors :=
        fold_left (fun (p : bool) c =>
                     if p then true
                     else if truthy (Dataset.error c) then true
                     else false) sdata false;
      Results.errors :=
        fold_left (fun p c => if truthy c then p ++ [c] else p)
                  (map Dataset.error sdata) [];
      Results.data := SDATA this |},
   World.set_date d w).

(** [startSteppin(altContext)]: [inl] is the value returned, [inr] a
    value thrown. *)
Definition startSteppin (altContext : value) (this : t) w
  : (Results.t + value) * t * World.t H :=
  let '(c, d) := StopClock.reset (TTIME this) (World.date w) in
  let this := set_TTIME c this in
  let w := World.set_date d w in
  match loop altContext (World.steplist w (STEPS this)) this w with
  | (Some e, this, w) => (inr e, this, w)
  | (None, this, w) =>
    let '(this, w) := TTIME_stop this w in
    let this := set_hasStepped true this in
    let '(r, w) := results this w in
    (inl r, this, w)
  end.

(** [start(altContext)] *)
Definition start (altContext : value) (this : t) w :=
  startSteppin altContext this w.

(** [new Stepper(stepArgs, ...steps)] *)
Definition constructor (stepArgs : value) (steps : list (Step.t H)) w
  : t * World.t H :=
  let '(args, w) :=
    match stepArgs with
    | Null | Undefined => World.new_array [] w
    | _ =>
      match World.isArray w stepArgs with
      | Some r => (r, w)
      | None => World.new_array [stepArgs] w
      end
    end in
  let '(bargs, w) := World.new_array (World.array w args) w in
  let '(sdata, w) := World.new_datalist [] w in
  let '(steps, w) := World.new_steplist steps w in
  let '(ttime, d) := StopClock.create (World.date w) in
  ({| OARGS := args; BARGS := bargs; SDATA := sdata; STEPS := steps;
      TTIME := ttime; hasStepped := false |},
   World.set_date d w).

(** [reset()] *)
Definition reset (this : t) w : t * World.t H :=
  let '(bargs, w) := World.new_array (World.array w (OARGS this)) w in
  let '(sdata, w) := World.new_datalist [] w in
  ({| OARGS := OARGS this; BARGS := bargs; SDATA := sdata;
      STEPS := STEPS this; TTIME := TTIME this; hasStepped := false |}, w).

(** [get steps()] *)
Definition steps (this : t) : loc := STEPS this.

(** The fields [Object.assign] can overwrite on a Step. *)
Record Fields := {
  f_name : option value;
  f_proceed : option (Step.fn H);
  f_step : option (Step.fn H)
}.

Definition assign (step : Step.t H) (i : Fields) : Step.t H :=
  {| Step.self := Step.self step;
     Step.name := default (Step.name step) (f_name i);
     Step.proceed := default (Step.proceed step) (f_proceed i);
     Step.step := default (Step.step step) (f_step i) |}.

Definition noOpStep : Step.fn H := fun _ _ h => (Return Undefined, h).

(** [Stepper.Step(name, stepFunction, ...stepData)]; [self] is the
    identity of the object it creates. *)
Definition Step (self : loc) (name : value)
    (stepFunction : option (Step.fn H)) (stepData : list Fields) : Step.t H :=
  fold_left assign stepData
    {| Step.self := self;
       Step.name := name;
       Step.proceed := fun _ _ h => (Return (Bool true), h);
       Step.step := default noOpStep stepFunction |}.
End Engine.
End Stepper.

(** ** What a run is observed to do *)

(** No listener of the event [k] throws. *)
Definition quiet_on {H} (k : EventKind) (listeners : Listeners H) : Prop :=
  forall err s d h, fst (listeners k err s d h) = None.

(** No listener throws. *)
Definition quiet {H} (listeners : Listeners H) : Prop :=
  forall k err s d h, fst (listeners k err s d h) = None.

(** What is observed while the [try] block of one step runs, with the value
    that leaves the block by a throw, if any: the step is announced, the
    guard is called, and the work function is called when the guard returned
    a truthy value. *)
Inductive try_obs {H} (thisArg : value) (args : list value) (step : Step.t H)
  : option value -> list (Obs H) -> Prop :=
| try_guard_threw d0 e :
    try_obs thisArg args step (Some e)
      [Emitted STEP_STARTED Null step d0;
       Called Guard step thisArg args (Throw e)]
| try_skipped d0 v :
    truthy v = false ->
    try_obs thisArg args step None
      [Emitted STEP_STARTED Null step d0;
       Called Guard step thisArg args (Return v)]
| try_worked d0 v r :
    truthy v = true ->
    try_obs thisArg args step None
      [Emitted STEP_STARTED Null step d0;
       Called Guard step thisArg args (Return v);
       Called Work step thisArg args (Return r)]
| try_work_threw d0 v e :
    truthy v = true ->
    try_obs thisArg args step (Some e)
      [Emitted STEP_STARTED Null step d0;
       Called Guard step thisArg args (Return v);
       Called Work step thisArg args (Throw e)].

(** The notification that closes the turn of a step. *)
Definition closing {H} (o : option value) (step : Step.t H) (d : Dataset.t H)
  : Obs H :=
  match o with
  | None => Emitted STEP_COMPLETED Null step d
  | Some e => Emitted STEP_FAILED e step d
  end.

(** The turn of [step] produced the Dataset [d] and the observations [seg]:
    what the guard or the work function threw is the error of [d] and is
    announced as a failure with [d]; with nothing thrown the error is [null]
    and the step is announced as completed. *)
Definition turn_obs {H} (thisArg : value) (args : list value) (step : Step.t H)
    (d : Dataset.t H) (seg : list (Obs H)) : Prop :=
  exists o pre,
    try_obs thisArg args step o pre
    /\ seg = pre ++ [closing o step d]
    /\ Dataset.error d = default Null o.

(** What holds of the turn of [step], with its Dataset [d] and its
    observations [seg], whatever the listeners of the start and of the
    completion do: the turn opens by announcing the step; a value thrown by
    the guard or by the work function is the error of [d] and is announced
    as a failure with [d]; and with listeners that do not throw the turn is
    as [turn_obs] describes. *)
Definition turn_ok {H} (listeners : Listeners H) (thisArg : value)
    (args : list value) (step : Step.t H) (d : Dataset.t H)
    (seg : list (Obs H)) : Prop :=
  (exists d0 rest, seg = Emitted STEP_STARTED Null step d0 :: rest)
  /\ (forall k s t a e,
        Called k s t a (Throw e) ∈ seg ->
        Dataset.error d = e /\ Emitted STEP_FAILED e step d ∈ seg)
  /\ (quiet listeners -> turn_obs thisArg args step d seg).

(** What one round of the loop leaves unchanged: the arrays of values and
    of Steps, and every field of the engine but its clock. *)
Definition frame {H} (this : Stepper.t) (w : World.t H)
    (this' : Stepper.t) (w' : World.t H) : Prop :=
  World.arrays w' = World.arrays w
  /\ World.steplists w' = World.steplists w
  /\ Stepper.OARGS this' = Stepper.OARGS this
  /\ Stepper.BARGS this' = Stepper.BARGS this
  /\ Stepper.SDATA this' = Stepper.SDATA this
  /\ Stepper.STEPS this' = Stepper.STEPS this
  /\ Stepper.hasStepped this' = Stepper.hasStepped this.

(** ** Series of stops, and what the callbacks leave behind *)

(** The event a [stop] measures from: the last stop, or [start]. *)
Definition previous_event (c : StopClock.t) : Z :=
  match StopClock.last_stop c with
  | Some s => Stop.valueOf s
  | None => StopClock.start c
  end.

(** [stop] called once per label of [lbls], in order, with the values the
    calls return. *)
Fixpoint stop_all (lbls : list value) (c : StopClock.t) (d : Date.t)
  : list Z * StopClock.t * Date.t :=
  match lbls with
  | [] => ([], c, d)
  | lbl :: lbls =>
    let '(t, c, d) := StopClock.stop lbl c d in
    let '(ts, c, d) := stop_all lbls c d in
    (t :: ts, c, d)
  end.

(** The stop objects a series of [stop] calls over [lbls] records from the
    wall clock [d] on: the readings of the clock, in order, each with its
    label, or [null] for a falsy one. *)
Definition recorded (lbls : list value) (d : Date.t) : list Stop.t :=
  imap (fun i lbl => {| Stop.valueOf := Date.wall d (Date.ticks d + i)%nat;
                        Stop.label := js_or lbl Null |}) lbls.

(** The differences between consecutive instants of [vs], the first one
    taken from [p]. *)
Fixpoint deltas (p : Z) (vs : list Z) : list Z :=
  match vs with
  | [] => []
  | v :: vs => (v - p) :: deltas v vs
  end.

Definition Zsum (l : list Z) : Z := foldr Z.add 0 l.

(** The listeners neither throw nor touch the state of the callbacks. *)
Definition passive {H} (listeners : Listeners H) : Prop :=
  forall k err s d h, listeners k err s d h = (None, h).

(** What the turn of [step] leaves of the callbacks' state [h]: the guard
    acts on it, then the work function when the guard returned a truthy
    value; what either did before throwing stays. *)
Definition after_step {H} (thisArg : value) (args : list value)
    (step : Step.t H) (h : H) : H :=
  match Step.proceed step thisArg args h with
  | (Throw _, h) => h
  | (Return doIt, h) =>
    if truthy doIt then snd (Step.step step thisArg args h) else h
  end.


(** ** What a run does to the state of the callbacks *)





(** ** A small engine to run *)

Module Example.
(** The callbacks act on a counter. *)
Definition wall (n : nat) : Z := 1000 + 10 * Z.of_nat n.

Definition w0 : World.t Z :=
  {| World.arrays := ∅; World.steplists := ∅; World.datalists := ∅;
     World.user := 0; World.date := {| Date.wall := wall; Date.ticks := 0 |};
     World.trace := [] |}.

Definition silent : Listeners Z := fun _ _ _ _ h => (None, h).

(** listeners of which the one for [STEP_FAILED] throws *)
Definition angry : Listeners Z :=
  fun k _ _ _ h =>
    match k with
    | STEP_FAILED => (Some (Str "listener"), h)
    | _ => (None, h)
    end.


Definition increment : Step.fn Z := fun _ _ h => (Return Undefined, h + 1).
Definition throw (e : value) : Step.fn Z := fun _ _ h => (Throw e, h).
Definition never : Step.fn Z := fun _ _ h => (Return (Bool false), h).

Definition one : Step.t Z :=
  Stepper.Step 1%nat (Str "one") (Some increment) [].
Definition guarded : Step.t Z :=
  Stepper.Step 2%nat (Str "guarded") (Some increment)
    [{| Stepper.f_name := None; Stepper.f_proceed := Some never;
        Stepper.f_step := None |}].
Definition no : Step.t Z :=
  Stepper.Step 3%nat (Str "no") (Some (throw (Str "NO NO NO!"))) [].
Definition zero : Step.t Z :=
  Stepper.Step 4%nat (Str "zero") (Some (throw (Num (Fin 0)))) [].

(** [new Stepper(7, one, guarded, no)] *)
Definition built := Stepper.constructor (Num (Fin 7)) [one; guarded; no] w0.
Definition engine : Stepper.t := fst built.
Definition world : World.t Z := snd built.

(** [new Stepper(undefined, zero)], and its first run *)
Definition built0 := Stepper.constructor Undefined [zero] w0.
Definition ran0 := Stepper.startSteppin silent Undefined (fst built0) (snd built0).

(** the first run of [engine], and what [results] answers after it *)
Definition ran := Stepper.startSteppin silent Undefined engine world.
Definition engine1 : Stepper.t := snd (fst ran).
Definition world1 : World.t Z := snd ran.
Definition query1 : Results.t := fst (Stepper.results engine1 world1).

(** The scenario of [tests/stepper.test.js]: three steps that succeed are
    run; a step that throws is pushed onto [stepper.steps] and the engine is
    run again; another one is pushed, the engine is reset and run. *)
Definition four : Step.t Z :=
  Stepper.Step 5%nat (Str "Step four") (Some (throw (Str "NO NO NO!"))) [].
Definition four' : Step.t Z :=
  Stepper.Step 6%nat (Str "Step four") (Some (throw (Str "YES YES YES!"))) [].
Definition test0 :=
  Stepper.constructor (Obj 100%nat)
    [Stepper.Step 1%nat (Str "Step One") (Some increment) [];
     Stepper.Step 2%nat (Str "Step Two") (Some increment) [];
     Stepper.Step 3%nat (Str "Step Three") (Some increment) []] w0.
Definition test1 := Stepper.startSteppin silent Undefined (fst test0) (snd test0).
Definition test2 :=
  Stepper.startSteppin silent Undefined (snd (fst test1))
    (World.push_step (Stepper.steps (snd (fst test1))) four (snd test1)).
Definition test3 :=
  let '(this, w) :=
    Stepper.reset (snd (fst test2))
      (World.push_step (Stepper.steps (snd (fst test2))) four' (snd test2)) in
  Stepper.startSteppin silent Undefined this w.

(** a step whose guard throws, and an engine that starts with it *)
Definition thrower : Step.t Z :=
  Stepper.Step 7%nat (Str "thrower") None
    [{| Stepper.f_name := None; Stepper.f_proceed := Some (throw (Str "guard"));
        Stepper.f_step := None |}].
Definition built2 := Stepper.constructor Undefined [thrower; one] w0.

(** a world in which the caller has an array, and the engine built on it *)
Definition with_array := World.new_array [Str "app"] w0.
Definition built3 :=
  Stepper.constructor (Obj (fst with_array)) [one] (snd with_array).

(** a Dataset made by a caller *)
Definition forged : Dataset.t Z :=
  {| Dataset.stopclock := {| StopClock.start := 0; StopClock.stops := [] |};
     Dataset.error := Str "forged";
     Dataset.step := one;
     Dataset.boundArgs := Undefined |}.
End Example.

(** * Properties of StopClock *)

Section StopClockFacts.
Implicit Types (c : StopClock.t) (d : Date.t) (lbl : value).

Lemma last_stop_snoc c s :
  StopClock.last_stop
    {| StopClock.start := StopClock.start c;
       StopClock.stops := StopClock.stops c ++ [s] |} = Some s.
Proof. unfold StopClock.last_stop; simpl. apply last_snoc. Qed.

Lemma last_stop_None c : StopClock.last_stop c = None <-> StopClock.stops c = [].
Proof. unfold StopClock.last_stop. apply last_None. Qed.

Lemma last_stop_lookup c :
  StopClock.last_stop c
  = StopClock.stops c !! (length (StopClock.stops c) - 1)%nat.
Proof.
  unfold StopClock.last_stop. rewrite last_lookup.
  f_equal. lia.
Qed.
End StopClockFacts.

(** C3, against the claim as it is written: the stop event that [stop]
    appends does not hold the time elapsed since [start].  On a clock
    started at instant 100 that is stopped at instant 150, the event holds
    150, not 50. *)
Lemma stop_event_is_not_elapsed_since_start :
  let c := {| StopClock.start := 100; StopClock.stops := [] |} in
  let d := {| Date.wall := fun _ => 150; Date.ticks := 0 |} in
  ~ (let '(_, c', _) := StopClock.stop (Str "a") c d in
     exists s, StopClock.last_stop c' = Some s
               /\ Stop.valueOf s = Date.wall d 0 - StopClock.start c).
Proof.
  intros c d [s [Hs Hv]]. vm_compute in Hs. inversion Hs; subst s.
  vm_compute in Hv. discriminate Hv.
Qed.

(** C3, as amended: [stop(label)] returns the time between now and the
    previous event (the last stop, or [start] when there is none); the event
    it appends holds the instant [now] itself, with the label when it is
    truthy and [null] otherwise; the time elapsed since [start] is what the
    [time] query then derives from it. *)
Theorem stop_returns_delta_and_records_instant lbl c d :
  let now := Date.wall d (Date.ticks d) in
  let previous :=
    match StopClock.last_stop c with
    | Some s => Stop.valueOf s
    | None => StopClock.start c
    end in
  let '(time, c', d') := StopClock.stop lbl c d in
  time = now - previous
  /\ StopClock.start c' = StopClock.start c
  /\ StopClock.stops c'
     = StopClock.stops c
       ++ [{| Stop.valueOf := now;
              Stop.label := if truthy lbl then lbl else Null |}]
  /\ StopClock.time c' d' = (now - StopClock.start c, d').
Proof.
  unfold StopClock.stop, Date.now; simpl.
  repeat split.
  unfold StopClock.time. rewrite last_stop_snoc. reflexivity.
Qed.

(** C4, against the claim as it is written: the [stop] field of the summary
    is not the elapsed time of the last stop.  On a clock started at 100
    with one stop at 150, that stop's [total] is 50 and the [stop] field is
    the stop object, whose number is 150. *)
Lemma summary_stop_is_not_cumulative :
  let c := {| StopClock.start := 100;
              StopClock.stops := [{| Stop.valueOf := 150; Stop.label := Null |}] |} in
  let d := {| Date.wall := fun _ => 170; Date.ticks := 0 |} in
  let sm := fst (StopClock.summary c d) in
  ~ (exists e, last (Summary.stops sm) = Some e
               /\ (Summary.stop sm = inr (Fin (StopSummary.total e))
                   \/ exists s, Summary.stop sm = inl s
                                /\ Stop.valueOf s = StopSummary.total e)).
Proof.
  intros c d sm [e [He Hs]]. vm_compute in He. inversion He; subst e.
  vm_compute in Hs. destruct Hs as [Hs | [s [Hs Hv]]].
  - discriminate Hs.
  - inversion Hs; subst s. discriminate Hv.
Qed.

(** C4, as amended: the summary has one entry per stop, in order; the entry
    of a stop has [time] the recorded instant, [total] the time from [start]
    to it, and [delta] the difference between its [total] and the previous
    entry's (0 for the first); the [stop] field is the last stop object
    itself (the recorded instant with its label), or [Infinity] when there
    is no stop; [total] is the [time] query and [sinceStart] the
    [timeSinceStart] query made after it. *)
Theorem summary_snapshot (c : StopClock.t) (d : Date.t) :
  let sm := fst (StopClock.summary c d) in
  Summary.start sm = StopClock.start c
  /\ length (Summary.stops sm) = length (StopClock.stops c)
  /\ (forall i s, StopClock.stops c !! i = Some s ->
        exists e, Summary.stops sm !! i = Some e
                  /\ StopSummary.time e = Stop.valueOf s
                  /\ StopSummary.total e = Stop.valueOf s - StopClock.start c
                  /\ StopSummary.label e = Stop.label s)
  /\ (forall e, Summary.stops sm !! 0%nat = Some e -> StopSummary.delta e = Fin 0)
  /\ (forall i p e, Summary.stops sm !! i = Some p ->
        Summary.stops sm !! S i = Some e ->
        StopSummary.delta e = Fin (StopSummary.total e - StopSummary.total p))
  /\ Summary.stop sm
     = match StopClock.last_stop c with
       | Some s => inl s
       | None => inr Infinity
       end
  /\ Summary.total sm = fst (StopClock.time c d)
  /\ Summary.sinceStart sm
     = fst (StopClock.timeSinceStart c (snd (StopClock.time c d))).
Proof.
  unfold StopClock.summary.
  destruct (StopClock.time c d) as [total' d1] eqn:Ht.
  destruct (StopClock.timeSinceStart c d1) as [since d2] eqn:Hs.
  simpl. split; [reflexivity|]. split; [apply length_imap|].
  split.
  { intros i s Hi. rewrite list_lookup_imap, Hi. simpl. eauto. }
  split.
  { intros e. rewrite list_lookup_imap.
    destruct (StopClock.stops c !! 0%nat); simpl; [|discriminate].
    intros [= <-]. reflexivity. }
  split.
  { intros i p e. rewrite !list_lookup_imap.
    destruct (StopClock.stops c !! i) as [sp|] eqn:Hp; simpl; [|discriminate].
    destruct (StopClock.stops c !! S i) as [se|] eqn:He; simpl; [|discriminate].
    intros [= <-] [= <-]. simpl.
    replace (i - 0)%nat with i by lia. rewrite Hp. simpl. f_equal. lia. }
  split; [reflexivity|]. split; [reflexivity|].
  unfold StopClock.timeSinceStart, Date.now in Hs. congruence.
Qed.

(** C9: [timeSinceLastStop] is not the time since the last stop.  With no
    stop recorded it subtracts a missing array element from now, which is
    [NaN]; with a stop recorded it is the [time] query, the last stop minus
    [start], and it does not read the clock at all. *)
Theorem timeSinceLastStop_is_NaN_or_time (c : StopClock.t) (d : Date.t) :
  match StopClock.stops c with
  | [] => fst (StopClock.timeSinceLastStop c d) = NaN
  | _ :: _ =>
    exists s, StopClock.last_stop c = Some s
      /\ StopClock.time c d = (Stop.valueOf s - StopClock.start c, d)
      /\ StopClock.timeSinceLastStop c d
         = (Fin (Stop.valueOf s - StopClock.start c), d)
  end.
Proof.
  unfold StopClock.timeSinceLastStop, StopClock.time.
  destruct (StopClock.stops c) as [|s0 l] eqn:Hl.
  - unfold StopClock.last_stop. rewrite Hl. reflexivity.
  - destruct (StopClock.last_stop c) as [s|] eqn:Hlast.
    + exists s. auto.
    + apply last_stop_None in Hlast. congruence.
Qed.

(** The model agrees with the assertions of [tests/stockclock.test.js] on
    labels: after a reset, a stop labelled ["Sample Label"] is found at
    index 0 with the clock's start, and a next one labelled ["NaN"] at
    index 1. *)
Lemma stopclock_test_suite (str_num : string -> number) (to_prim : nat -> value) :
  let d := {| Date.wall := fun n => 1000 + 10 * Z.of_nat n; Date.ticks := 0 |} in
  let '(clock, d) := StopClock.create d in
  let '(clock, d) := StopClock.reset clock d in
  let '(_, clock, d) := StopClock.stop (Str "Sample Label") clock d in
  (exists stop,
     StopClock.findStop str_num to_prim (Str "Sample Label") clock = Some stop
     /\ Found.label stop = Str "Sample Label"
     /\ Found.start stop = StopClock.start clock
     /\ Stop.valueOf <$> StopClock.stops clock !! Found.index stop
        = Some (Found.valueOf stop)
     /\ Found.index stop = 0%nat)
  /\ let '(_, clock, d) := StopClock.stop (Str "NaN") clock d in
     Found.index <$> StopClock.findStop str_num to_prim (Str "NaN") clock
     = Some 1%nat.
Proof. simpl. split; [eexists; repeat split|reflexivity]. Qed.

(** ** [findStop] *)

Section FindStopFacts.
Variable str_num : string -> number.
Variable to_prim : loc -> value.

Abbreviation loose_eq := (loose_eq str_num to_prim).
Abbreviation findStop := (StopClock.findStop str_num to_prim).
Abbreviation findStop_step := (StopClock.findStop_step str_num to_prim).

(** Nothing truthy is loosely equal to [null] or [undefined]. *)
Lemma truthy_not_nullish (v lbl : value) :
  lbl = Null \/ lbl = Undefined -> truthy v = true -> loose_eq v lbl = false.
Proof.
  intros [-> | ->] Hv; destruct v as [| |[]|n|s|l]; try discriminate Hv;
    reflexivity.
Qed.

Lemma reduce_from_found self lbl i l f :
  StopClock.reduce_from (findStop_step self lbl) i l (Some f) = Some f.
Proof. revert i. induction l as [|c l IH]; intros i; simpl; auto. Qed.

(** The reducer started at position [i] on an empty accumulator returns
    the first stop of [l] that passes the test, with its position. *)
Lemma reduce_from_first self lbl l : forall i,
  match StopClock.reduce_from (findStop_step self lbl) i l None with
  | Some f =>
    exists j c,
      l !! j = Some c
      /\ truthy (Stop.label c) = true
      /\ loose_eq (Stop.label c) lbl = true
      /\ (forall k c', (k < j)%nat -> l !! k = Some c' ->
            truthy (Stop.label c') && loose_eq (Stop.label c') lbl = false)
      /\ f = {| Found.valueOf := Stop.valueOf c;
                Found.stop := Stop.valueOf c;
                Found.start := StopClock.start self;
                Found.label := Stop.label c;
                Found.index := (i + j)%nat |}
  | None =>
    forall j c, l !! j = Some c ->
      truthy (Stop.label c) && loose_eq (Stop.label c) lbl = false
  end.
Proof.
  induction l as [|c l IH]; intros i; simpl.
  - intros j c Hj. destruct j; discriminate Hj.
  - destruct (truthy (Stop.label c) && loose_eq (Stop.label c) lbl) eqn:Hc.
    + rewrite reduce_from_found.
      apply andb_prop in Hc as [Ht He].
      exists 0%nat, c. split_and!; auto.
      * intros k c' Hk. lia.
    + specialize (IH (S i)).
      destruct (StopClock.reduce_from (findStop_step self lbl) (S i) l None)
        as [f|].
      * destruct IH as (j & c0 & Hj & Ht & He & Hleast & ->).
        exists (S j), c0. split_and!; auto.
        -- intros [|k] c' Hk Hc'; simpl in Hc'.
           ++ congruence.
           ++ apply (Hleast k); [lia | assumption].
      * intros [|j] c0 Hj; simpl in Hj.
        -- congruence.
        -- eauto.
Qed.

(** C10: [findStop] only matches stops whose label is truthy.  What it
    returns is the first stop, in sequence order, whose label is truthy
    and loosely equal to the label asked for, and it returns one whenever
    there is one.  A stop recorded by [stop()] with no label has the label
    [null] and is returned for no argument; [findStop(null)] and
    [findStop(undefined)] return nothing on every clock. *)
Theorem findStop_matches_truthy_labels_only
    (lbl : value) (c : StopClock.t) (d : Date.t) :
  (forall f, findStop lbl c = Some f ->
     exists s, StopClock.stops c !! Found.index f = Some s
       /\ truthy (Stop.label s) = true
       /\ loose_eq (Stop.label s) lbl = true
       /\ Found.label f = Stop.label s
       /\ Found.stop f = Stop.valueOf s
       /\ Found.valueOf f = Stop.valueOf s
       /\ Found.start f = StopClock.start c
       /\ forall k s', (k < Found.index f)%nat ->
            StopClock.stops c !! k = Some s' ->
            truthy (Stop.label s') && loose_eq (Stop.label s') lbl = false)
  /\ (forall k s, StopClock.stops c !! k = Some s ->
        truthy (Stop.label s) = true -> loose_eq (Stop.label s) lbl = true ->
        is_Some (findStop lbl c))
  /\ (let '(_, c', _) := StopClock.stop Undefined c d in
      StopClock.stops c'
      = StopClock.stops c
        ++ [{| Stop.valueOf := Date.wall d (Date.ticks d); Stop.label := Null |}]
      /\ forall l f, findStop l c' = Some f ->
           Found.index f <> length (StopClock.stops c))
  /\ findStop Null c = None
  /\ findStop Undefined c = None.
Proof.
  assert (Hnullish : forall l c0, l = Null \/ l = Undefined ->
            findStop l c0 = None).
  { intros l c0 Hl. unfold StopClock.findStop.
    pose proof (reduce_from_first c0 l (StopClock.stops c0) 0) as Hr.
    destruct (StopClock.reduce_from _ _ _ _) as [f|]; [|reflexivity].
    destruct Hr as (j & s & _ & Ht & He & _).
    rewrite (truthy_not_nullish _ _ Hl Ht) in He. discriminate He. }
  split; [|split; [|split; [|split]]].
  - intros f Hf. unfold StopClock.findStop in Hf.
    pose proof (reduce_from_first c lbl (StopClock.stops c) 0) as Hr.
    rewrite Hf in Hr. destruct Hr as (j & s & Hj & Ht & He & Hleast & ->).
    simpl. exists s. split_and!; auto.
  - intros k s Hk Ht He. unfold StopClock.findStop.
    pose proof (reduce_from_first c lbl (StopClock.stops c) 0) as Hr.
    destruct (StopClock.reduce_from _ _ _ _) as [f|]; [eauto|].
    specialize (Hr k s Hk). rewrite Ht, He in Hr. discriminate Hr.
  - unfold StopClock.stop, Date.now; simpl. split; [reflexivity|].
    intros l f Hf Hidx. unfold StopClock.findStop in Hf; simpl in Hf.
    match type of Hf with
    | StopClock.reduce_from ?g 0%nat ?ls None = _ =>
      pose proof (reduce_from_first
        {| StopClock.start := StopClock.start c;
           StopClock.stops := ls |} l ls 0) as Hr
    end.
    simpl in Hr. rewrite Hf in Hr.
    destruct Hr as (j & s & Hj & Ht & _ & _ & ->).
    simpl in Hidx. subst j.
    rewrite lookup_app_r in Hj by lia.
    replace (length (StopClock.stops c) - length (StopClock.stops c))%nat
      with 0%nat in Hj by lia.
    simpl in Hj. injection Hj as <-. discriminate Ht.
  - apply Hnullish. auto.
  - apply Hnullish. auto.
Qed.
End FindStopFacts.

(** * Properties of Stepper *)

Ltac data_pushed :=
  unfold World.datalist, World.push_data; simpl;
  rewrite lookup_insert_eq; reflexivity.

Section RunFacts.
Context {H : Type}.
Variable listeners : Listeners H.
Hypothesis Hfailed : quiet_on STEP_FAILED listeners.

Implicit Types (w : World.t H) (this : Stepper.t) (step : Step.t H).

Lemma emit_failed err step (d : Dataset.t H) w :
  Stepper.emit listeners STEP_FAILED err step d w
  = (None, World.set_user (snd (listeners STEP_FAILED err step d (World.user w)))
              (World.observe (Emitted STEP_FAILED err step d) w)).
Proof.
  unfold Stepper.emit. simpl.
  pose proof (Hfailed err step d (World.user w)) as Hk.
  destruct (listeners STEP_FAILED err step d (World.user w)) as [r h].
  simpl in *. subst r. reflexivity.
Qed.

Lemma frame_refl this w : frame this w this w.
Proof. repeat split. Qed.

Lemma frame_trans this w this1 w1 this2 w2 :
  frame this w this1 w1 -> frame this1 w1 this2 w2 -> frame this w this2 w2.
Proof.
  unfold frame. intros (?&?&?&?&?&?&?) (?&?&?&?&?&?&?).
  split_and!; congruence.
Qed.

(** a listener that threw contradicts [quiet] *)
Ltac not_quiet :=
  let Hq := fresh "Hq" in
  let Hx := fresh "Hx" in
  intros Hq;
  match goal with
  | HL : listeners ?k ?a ?b ?c ?d = (Some _, _) |- _ =>
    pose proof (Hq k a b c d) as Hx; rewrite HL in Hx; discriminate Hx
  end.

(** the calls that threw, among the observations of a turn *)
Ltac thrown :=
  let Hin := fresh "Hin" in
  intros ? ? ? ? ? Hin; simpl in Hin;
  rewrite !elem_of_cons, elem_of_nil in Hin;
  destruct_or!; simplify_eq;
  (split; [reflexivity | set_solver]).

(** One round: the step gets its Dataset, whatever its guard and its work
    function do. *)
Lemma turn_shape altContext step this w :
  exists (d : Dataset.t H) (seg : list (Obs H)) this' w',
    Stepper.turn listeners altContext step this w = (None, this', w')
    /\ World.datalist w' (Stepper.SDATA this)
       = World.datalist w (Stepper.SDATA this) ++ [d]
    /\ Dataset.step d = step
    /\ World.trace w' = World.trace w ++ seg
    /\ turn_ok listeners (js_or altContext (Obj (Step.self step)))
               (World.array w (Stepper.BARGS this)) step d seg
    /\ frame this w this' w'.
Proof.
  unfold Stepper.turn, Stepper.try_block, Stepper.Dataset, Stepper.call,
    Stepper.stopclock_reset, Stepper.stopclock_stop, Stepper.TTIME_stop,
    StopClock.create, StopClock.reset, StopClock.stop, Date.now.
  set (thisArg := js_or altContext (Obj (Step.self step))).
  unfold Stepper.emit at 1. simpl.
  destruct (listeners STEP_STARTED _ _ _ _) as [[e0|] h0] eqn:Hstarted; simpl.
  2: destruct (Step.proceed step thisArg _ _) as [[doIt|e] h1] eqn:Hg; simpl.
  2: destruct (truthy doIt) eqn:Ht; simpl.
  2: destruct (Step.step step thisArg _ _) as [[r|e] h2] eqn:Hw; simpl.
  2, 4: unfold Stepper.emit at 1; simpl;
        destruct (listeners STEP_COMPLETED _ _ _ _) as [[e1|] h3] eqn:Hcompleted;
        simpl.
  all: rewrite ?emit_failed; simpl;
    eexists _, _, _, _; (split; [reflexivity|]);
    (split; [data_pushed|]); (split; [reflexivity|]);
    (split; [simpl; rewrite <- !app_assoc; reflexivity|]);
    (split; [|repeat split]);
    (split; [do 2 eexists; reflexivity|]);
    (split; [thrown|]).
  all: try not_quiet.
  all: intros _; eexists; eexists.
  all: first
    [ solve [split; [eapply try_worked; eauto | split; reflexivity]]
    | solve [split; [eapply try_work_threw; eauto | split; reflexivity]]
    | solve [split; [eapply try_skipped; eauto | split; reflexivity]]
    | solve [split; [eapply try_guard_threw; eauto | split; reflexivity]] ].
Qed.

(** The loop: one round per step, in the order of the list. *)
Lemma loop_shape altContext (steps : list (Step.t H)) : forall this w,
  exists (runs : list (Dataset.t H * list (Obs H))) this' w',
    Stepper.loop listeners altContext steps this w = (None, this', w')
    /\ World.datalist w' (Stepper.SDATA this)
       = World.datalist w (Stepper.SDATA this) ++ runs.*1
    /\ World.trace w' = World.trace w ++ concat runs.*2
    /\ Forall2 (fun step run =>
                  Dataset.step run.1 = step
                  /\ turn_ok listeners (js_or altContext (Obj (Step.self step)))
                             (World.array w (Stepper.BARGS this))
                             step run.1 run.2)
               steps runs
    /\ frame this w this' w'.
Proof.
  induction steps as [|step steps IH]; intros this w; simpl.
  - exists [], this, w. simpl. rewrite !app_nil_r.
    split_and!; auto using frame_refl.
  - destruct (turn_shape altContext step this w)
      as (d & seg & this1 & w1 & Ht & Hd & Hs & Htr & Hobs & Hf).
    rewrite Ht.
    destruct (IH this1 w1) as (runs & this2 & w2 & Hl & Hd2 & Htr2 & Hall & Hf2).
    exists ((d, seg) :: runs), this2, w2.
    pose proof Hf as (Ha & _ & _ & Hb & Hsd & _).
    split_and!; eauto using frame_trans.
    + rewrite <- Hsd, Hd2, Hsd, Hd. simpl. rewrite <- app_assoc. reflexivity.
    + rewrite Htr2, Htr. simpl. rewrite <- app_assoc. reflexivity.
    + constructor; [auto|].
      unfold World.array in *. rewrite <- Ha, <- Hb. exact Hall.
Qed.

(** A whole run. *)
Lemma startSteppin_shape altContext this w :
  exists r this' w' (runs : list (Dataset.t H * list (Obs H))),
    Stepper.startSteppin listeners altContext this w = (inl r, this', w')
    /\ Results.stepped r = true
    /\ Results.data r = Stepper.SDATA this
    /\ World.datalist w' (Stepper.SDATA this)
       = World.datalist w (Stepper.SDATA this) ++ runs.*1
    /\ World.trace w' = World.trace w ++ concat runs.*2
    /\ Forall2 (fun step run =>
                  Dataset.step run.1 = step
                  /\ turn_ok listeners (js_or altContext (Obj (Step.self step)))
                             (World.array w (Stepper.BARGS this))
                             step run.1 run.2)
               (World.steplist w (Stepper.STEPS this)) runs
    /\ World.arrays w' = World.arrays w
    /\ World.steplists w' = World.steplists w
    /\ Stepper.OARGS this' = Stepper.OARGS this
    /\ Stepper.BARGS this' = Stepper.BARGS this
    /\ Stepper.SDATA this' = Stepper.SDATA this
    /\ Stepper.STEPS this' = Stepper.STEPS this
    /\ Stepper.hasStepped this' = true.
Proof.
  unfold Stepper.startSteppin.
  destruct (StopClock.reset (Stepper.TTIME this) (World.date w)) as [c0 d0].
  set (this0 := Stepper.set_TTIME c0 this).
  set (w0 := World.set_date d0 w).
  destruct (loop_shape altContext (World.steplist w0 (Stepper.STEPS this0)) this0 w0)
    as (runs & this1 & w1 & Hl & Hd & Htr & Hall & Hf).
  rewrite Hl.
  destruct Hf as (Ha & Hst & Ho & Hb & Hsd & Hsp & Hh).
  unfold Stepper.TTIME_stop.
  destruct (StopClock.stop Undefined (Stepper.TTIME this1) (World.date w1))
    as [[t1 c1] d1].
  unfold Stepper.results.
  destruct (StopClock.summary _ _) as [timing d1'].
  destruct (StopClock.time _ d1') as [totalTime d2].
  eexists _, _, _, runs. split; [reflexivity|]. simpl.
  split_and!; auto.
Qed.
End RunFacts.


(** ** A run, told with the functions of the steps *)

Section RunSemantics.
Context {H : Type}.
Variable listeners : Listeners H.
Hypothesis Hfailed : quiet_on STEP_FAILED listeners.

Implicit Types (w : World.t H) (this : Stepper.t) (step : Step.t H).



End RunSemantics.










(** The listeners matter: when the one for [STEP_FAILED] throws, the run is
    left by that throw at the first failing step. *)
Lemma startSteppin_throws_with_angry_listener :
  fst (fst (Stepper.startSteppin Example.angry Undefined
              Example.engine Example.world))
  = inr (Str "listener").
Proof. vm_compute. reflexivity. Qed.

(** The model agrees with the assertions of [tests/stepper.test.js]. *)
Lemma stepper_test_suite :
  Stepper.hasStepped (fst (Stepper.constructor Undefined [] Example.w0)) = false
  /\ (exists r this w,
        Example.test1 = (inl r, this, w)
        /\ Results.stepped r = true
        /\ Results.hasErrors r = false
        /\ length (World.datalist w (Results.data r))
           = length (World.steplist w (Stepper.steps this)))
  /\ (exists r this w,
        Example.test2 = (inl r, this, w)
        /\ Results.hasErrors r = true
        /\ Results.errors r !! 0%nat = Some (Str "NO NO NO!"))
  /\ (exists r this w,
        Example.test3 = (inl r, this, w)
        /\ Results.hasErrors r = true
        /\ length (Results.errors r) = 2%nat).
Proof.
  split; [vm_compute; reflexivity|].
  split_and!; eexists _, _, _;
    (split; [vm_compute; reflexivity|]); vm_compute; repeat split.
Qed.

(** ** [results] *)

Section ResultsFacts.
Context {H : Type}.
Implicit Types (w : World.t H) (this : Stepper.t).

(** What the two reducers of [results] compute. *)
Lemma hasErrors_reducer (l : list (Dataset.t H)) (p : bool) :
  fold_left (fun (p : bool) c =>
               if p then true
               else if truthy (Dataset.error c) then true else false) l p
  = p || existsb (fun c => truthy (Dataset.error c)) l.
Proof.
  revert p. induction l as [|c l IH]; intros p; simpl.
  - destruct p; reflexivity.
  - rewrite IH. destruct p, (truthy (Dataset.error c)); reflexivity.
Qed.

Lemma errors_reducer (l p : list value) :
  fold_left (fun p c => if truthy c then p ++ [c] else p) l p
  = p ++ filter (fun c => truthy c = true) l.
Proof.
  revert p. induction l as [|c l IH]; intros p; simpl.
  - rewrite app_nil_r. reflexivity.
  - rewrite IH, filter_cons.
    destruct (truthy c) eqn:Hc; case_decide; try congruence.
    rewrite <- app_assoc. reflexivity.
Qed.

(** [hasErrors] and [errors] go by the truthiness of the recorded errors. *)
Lemma results_errors_by_truthiness this w :
  let r := fst (Stepper.results this w) in
  let sdata := World.datalist w (Stepper.SDATA this) in
  Results.hasErrors r = existsb (fun c => truthy (Dataset.error c)) sdata
  /\ Results.errors r
     = filter (fun c => truthy c = true) (map Dataset.error sdata).
Proof.
  unfold Stepper.results.
  destruct (StopClock.summary _ _) as [timing d1].
  destruct (StopClock.time _ d1) as [totalTime d2]. simpl.
  rewrite hasErrors_reducer, errors_reducer. split; reflexivity.
Qed.
End ResultsFacts.

(** C2, evaluated on a step that throws [0]: the run records the error [0]
    in the step's Dataset and announces the failure, and the Result of the
    run has [hasErrors = false] and an empty [errors]. *)
Lemma falsy_error_is_not_reported :
  exists r this w d,
    Example.ran0 = (inl r, this, w)
    /\ World.datalist w (Results.data r) = [d]
    /\ Dataset.step d = Example.zero
    /\ Dataset.error d = Num (Fin 0)
    /\ Emitted STEP_FAILED (Num (Fin 0)) Example.zero d ∈ World.trace w
    /\ Results.hasErrors r = false
    /\ Results.errors r = [].
Proof.
  eexists _, _, _, _. split; [vm_compute; reflexivity|].
  split; [vm_compute; reflexivity|].
  split; [vm_compute; reflexivity|].
  split; [vm_compute; reflexivity|].
  split; [|split; vm_compute; reflexivity].
  apply list_elem_of_lookup. exists 3%nat. vm_compute. reflexivity.
Qed.

(** ** Construction and [reset] *)

Section StoreFacts.
Context {H : Type}.
Implicit Types (w : World.t H) (this : Stepper.t).

Lemma new_array_fresh (l : list value) w :
  fst (World.new_array l w) ∉ dom (World.arrays w).
Proof. unfold World.new_array; simpl. apply is_fresh. Qed.

Lemma new_array_read (l : list value) w :
  World.array (snd (World.new_array l w)) (fst (World.new_array l w)) = l.
Proof.
  unfold World.new_array, World.array; simpl.
  rewrite lookup_insert_eq. reflexivity.
Qed.

(** A new array leaves the arrays there are as they are. *)
Lemma new_array_other (l : list value) w (r : nat) :
  r ≠ fst (World.new_array l w) ->
  World.array (snd (World.new_array l w)) r = World.array w r.
Proof.
  intros Hr. unfold World.new_array, World.array in *; simpl in *.
  rewrite lookup_insert_ne by congruence. reflexivity.
Qed.

(** Reading through a reference that is no array gives no element, and
    stays so when that reference becomes the one of a new empty array. *)
Lemma array_unallocated w (r : nat) :
  r ∉ dom (World.arrays w) -> World.array w r = [].
Proof.
  intros Hr. unfold World.array.
  apply not_elem_of_dom in Hr. rewrite Hr. reflexivity.
Qed.

Lemma isArray_Some w v r :
  World.isArray w v = Some r -> v = Obj r /\ r ∈ dom (World.arrays w).
Proof.
  unfold World.isArray. destruct v; try discriminate.
  case_decide as Hl; [|discriminate]. intros [= ->].
  split; [reflexivity|]. apply elem_of_dom. exact Hl.
Qed.
End StoreFacts.

(** C6: [reset()] sets [hasStepped] to [false]; the working Context becomes
    a new array with the elements of the original one, which stays as it
    is; the accumulated Datasets become a new, empty array; the array of
    Steps, its elements and the engine's reference to it are unchanged.  So
    the next run appends to an empty list: with [N] registered steps its
    Result has exactly [N] Datasets, however many there were before. *)
Theorem reset_restores {H} (this : Stepper.t) (w : World.t H) :
  let '(this', w') := Stepper.reset this w in
  Stepper.hasStepped this' = false
  /\ World.array w' (Stepper.BARGS this') = World.array w (Stepper.OARGS this)
  /\ (Stepper.BARGS this' ∉ dom (World.arrays w))
  /\ Stepper.OARGS this' = Stepper.OARGS this
  /\ World.array w' (Stepper.OARGS this') = World.array w (Stepper.OARGS this)
  /\ World.datalist w' (Stepper.SDATA this') = []
  /\ (Stepper.SDATA this' ∉ dom (World.datalists w))
  /\ Stepper.STEPS this' = Stepper.STEPS this
  /\ World.steplists w' = World.steplists w
  /\ forall listeners altContext, quiet_on STEP_FAILED listeners ->
       exists r this'' w'',
         Stepper.startSteppin listeners altContext this' w' = (inl r, this'', w'')
         /\ length (World.datalist w'' (Results.data r))
            = length (World.steplist w (Stepper.STEPS this)).
Proof.
  unfold Stepper.reset.
  destruct (World.new_array (World.array w (Stepper.OARGS this)) w)
    as [bargs w1] eqn:Hb.
  destruct (World.new_datalist [] w1) as [sdata w2] eqn:Hs.
  pose proof (new_array_fresh (World.array w (Stepper.OARGS this)) w) as Hfresh.
  pose proof (new_array_read (World.array w (Stepper.OARGS this)) w) as Hread.
  rewrite Hb in Hfresh, Hread; simpl in Hfresh, Hread.
  assert (Hw2 : World.arrays w2 = World.arrays w1
                /\ World.steplists w2 = World.steplists w1
                /\ World.datalist w2 sdata = []
                /\ sdata ∉ dom (World.datalists w1)).
  { unfold World.new_datalist in Hs. injection Hs as <- <-. simpl.
    split_and!; try reflexivity.
    - unfold World.datalist; simpl. rewrite lookup_insert_eq. reflexivity.
    - apply is_fresh. }
  destruct Hw2 as (Ha2 & Hst2 & Hd2 & Hsf).
  assert (Hw1 : World.steplists w1 = World.steplists w
                /\ World.datalists w1 = World.datalists w).
  { unfold World.new_array in Hb. injection Hb as <- <-. simpl. auto. }
  destruct Hw1 as (Hst1 & Hd1).
  assert (Horig : World.array w1 (Stepper.OARGS this)
                  = World.array w (Stepper.OARGS this)).
  { destruct (decide (Stepper.OARGS this = bargs)) as [Heq | Hne].
    - rewrite Heq in Hread |- *. exact Hread.
    - pose proof (new_array_other (World.array w (Stepper.OARGS this)) w
                    (Stepper.OARGS this)) as Ho.
      rewrite Hb in Ho; simpl in Ho. apply Ho. exact Hne. }
  simpl. split_and!; auto.
  - unfold World.array. rewrite Ha2. exact Hread.
  - unfold World.array in Horig |- *. rewrite Ha2. exact Horig.
  - rewrite <- Hd1. exact Hsf.
  - congruence.
  - intros listeners altContext Hquiet.
    destruct (startSteppin_shape listeners Hquiet altContext
                {| Stepper.OARGS := Stepper.OARGS this;
                   Stepper.BARGS := bargs;
                   Stepper.SDATA := sdata;
                   Stepper.STEPS := Stepper.STEPS this;
                   Stepper.TTIME := Stepper.TTIME this;
                   Stepper.hasStepped := false |} w2)
      as (r & this'' & w'' & runs & Hrun & _ & Hdata & Hd & _ & Hall & _).
    simpl in *. exists r, this'', w''. split; [exact Hrun|].
    rewrite Hdata, Hd, Hd2. simpl. rewrite length_fmap.
    apply Forall2_length in Hall. rewrite <- Hall.
    unfold World.steplist. rewrite Hst2, Hst1. reflexivity.
Qed.

(** C6 on the engine of [Example] after its first run, which left three
    Datasets: after [reset()] the next run leaves three again, not six. *)
Lemma reset_restores_example :
  length (World.datalist Example.world1 (Stepper.SDATA Example.engine1)) = 3%nat
  /\ Stepper.hasStepped Example.engine1 = true
  /\ let '(this', w') := Stepper.reset Example.engine1 Example.world1 in
     Stepper.hasStepped this' = false
     /\ World.datalist w' (Stepper.SDATA this') = []
     /\ exists r this'' w'',
          Stepper.startSteppin Example.silent Undefined this' w'
          = (inl r, this'', w'')
          /\ length (World.datalist w'' (Results.data r))
             = length (World.steplist Example.world1
                         (Stepper.STEPS Example.engine1)).
Proof.
  split; [vm_compute; reflexivity|].
  split; [vm_compute; reflexivity|].
  pose proof (reset_restores Example.engine1 Example.world1) as Hr.
  destruct (Stepper.reset Example.engine1 Example.world1) as [this' w'].
  destruct Hr as (Hh & _ & _ & _ & _ & Hd & _ & _ & _ & Hrun).
  split; [exact Hh|]. split; [exact Hd|].
  apply (Hrun Example.silent Undefined).
  intros err s d h. reflexivity.
Defined.

(** C7: the engine is built with [hasStepped = false].  Its original
    Context is an empty array when the value given is [null] or [undefined],
    the array itself when the value is an array, and a new array holding
    just the value otherwise; the working Context is another array with the
    same elements.  The Steps given are registered in order and no Dataset
    is accumulated. *)
Theorem constructor_context {H} (stepArgs : value) (steps : list (Step.t H))
    (w : World.t H) :
  let '(this, w') := Stepper.constructor stepArgs steps w in
  Stepper.hasStepped this = false
  /\ World.array w' (Stepper.OARGS this)
     = match stepArgs with
       | Null | Undefined => []
       | _ =>
         match World.isArray w stepArgs with
         | Some r => World.array w r
         | None => [stepArgs]
         end
       end
  /\ match World.isArray w stepArgs with
     | Some r => Stepper.OARGS this = r
     | None => Stepper.OARGS this ∉ dom (World.arrays w)
     end
  /\ World.array w' (Stepper.BARGS this) = World.array w' (Stepper.OARGS this)
  /\ Stepper.BARGS this <> Stepper.OARGS this
  /\ (Stepper.BARGS this ∉ dom (World.arrays w))
  /\ World.steplist w' (Stepper.STEPS this) = steps
  /\ World.datalist w' (Stepper.SDATA this) = [].
Proof.
  unfold Stepper.constructor.
  set (first :=
         match stepArgs with
         | Null | Undefined => World.new_array [] w
         | _ =>
           match World.isArray w stepArgs with
           | Some r => (r, w)
           | None => World.new_array [stepArgs] w
           end
         end).
  assert (Hfirst :
            World.array first.2 first.1
            = match stepArgs with
              | Null | Undefined => []
              | _ =>
                match World.isArray w stepArgs with
                | Some r => World.array w r
                | None => [stepArgs]
                end
              end
            /\ match World.isArray w stepArgs with
               | Some r => first.1 = r
               | None => first.1 ∉ dom (World.arrays w)
               end
            /\ (first.1 ∈ dom (World.arrays first.2))
            /\ (dom (World.arrays w) ⊆ dom (World.arrays first.2))
            /\ World.steplists first.2 = World.steplists w
            /\ World.datalists first.2 = World.datalists w
            /\ World.date first.2 = World.date w).
  { assert (Hnew : forall l,
              World.array (World.new_array l w).2 (World.new_array l w).1 = l
              /\ ((World.new_array l w).1 ∉ dom (World.arrays w))
              /\ ((World.new_array l w).1 ∈ dom (World.arrays (World.new_array l w).2))
              /\ (dom (World.arrays w) ⊆ dom (World.arrays (World.new_array l w).2))
              /\ World.steplists (World.new_array l w).2 = World.steplists w
              /\ World.datalists (World.new_array l w).2 = World.datalists w
              /\ World.date (World.new_array l w).2 = World.date w).
    { intros l. split; [apply new_array_read|]. split; [apply new_array_fresh|].
      unfold World.new_array; simpl. rewrite dom_insert_L.
      split_and!; try reflexivity; set_solver. }
    subst first.
    destruct (World.isArray w stepArgs) as [r|] eqn:Harr.
    - apply isArray_Some in Harr as [-> Hr]. simpl.
      split_and!; auto.
    - destruct stepArgs; first [exact (Hnew []) | exact (Hnew [_])]. }
  destruct first as [args w0]. simpl in Hfirst.
  destruct Hfirst as (Hread & Hkept & Hin & Hsub & Hst & Hda & Hdt).
  pose proof (new_array_read (World.array w0 args) w0) as Hb.
  pose proof (new_array_fresh (World.array w0 args) w0) as Hbf.
  pose proof (new_array_other (World.array w0 args) w0 args) as Hbo.
  destruct (World.new_array (World.array w0 args) w0) as [bargs w1] eqn:Hw1.
  simpl in Hb, Hbf, Hbo.
  assert (Hne : args ≠ bargs) by (intros ->; contradiction).
  specialize (Hbo Hne).
  unfold World.new_array in Hw1. injection Hw1 as <- <-.
  unfold World.new_datalist, World.new_steplist, StopClock.create, Date.now.
  simpl.
  split; [reflexivity|].
  split; [unfold World.array in *; simpl in *; congruence|].
  split; [exact Hkept|].
  split; [unfold World.array in *; simpl in *; congruence|].
  split; [congruence|].
  split; [set_solver|].
  split.
  - unfold World.steplist; simpl. rewrite lookup_insert_eq. reflexivity.
  - unfold World.datalist; simpl. rewrite lookup_insert_eq. reflexivity.
Qed.

(** ** Who can reach the list of Datasets *)

(** C8, against the claim as it is written: [results] hands out the engine's
    own array of Datasets.  After the run of [Example] the caller pushes a
    Dataset of its own making onto [results.data]; no operation of the engine
    is called, and the engine's list has grown and the next [results]
    reports the forged error. *)
Lemma results_data_is_mutable_engine_state :
  Results.data Example.query1 = Stepper.SDATA Example.engine1
  /\ Results.errors Example.query1 = [Str "NO NO NO!"]
  /\ length (World.datalist Example.world1 (Stepper.SDATA Example.engine1))
     = 3%nat
  /\ let w := World.push_data (Results.data Example.query1) Example.forged
                Example.world1 in
     length (World.datalist w (Stepper.SDATA Example.engine1)) = 4%nat
     /\ Results.errors (fst (Stepper.results Example.engine1 w))
        = [Str "NO NO NO!"; Str "forged"].
Proof. vm_compute. repeat split. Qed.

(** C8, as amended: the [data] of a Result is the engine's own array of
    Datasets, the same object and not a copy, so what a caller pushes onto
    it is pushed onto the engine's list and shows in the [errors] of the
    next [results]; [reset()] gives the engine another array, one that no
    Result handed out before.  Of the run-level clock a Result carries the
    summary and the time only. *)
Theorem results_data_is_SDATA {H} (this : Stepper.t) (w : World.t H)
    (d : Dataset.t H) :
  let r := fst (Stepper.results this w) in
  let w' := World.push_data (Results.data r) d w in
  Results.data r = Stepper.SDATA this
  /\ World.datalist w' (Stepper.SDATA this)
     = World.datalist w (Stepper.SDATA this) ++ [d]
  /\ Results.errors (fst (Stepper.results this w'))
     = Results.errors r
       ++ (if truthy (Dataset.error d) then [Dataset.error d] else [])
  /\ (Stepper.SDATA (fst (Stepper.reset this w)) ∉ dom (World.datalists w))
  /\ Results.timing r = fst (StopClock.summary (Stepper.TTIME this) (World.date w))
  /\ Results.totalTime r
     = fst (StopClock.time (Stepper.TTIME this)
              (snd (StopClock.summary (Stepper.TTIME this) (World.date w)))).
Proof.
  intros r w'.
  assert (Hdata : Results.data r = Stepper.SDATA this).
  { subst r. unfold Stepper.results.
    destruct (StopClock.summary _ _) as [timing d1].
    destruct (StopClock.time _ d1) as [totalTime d2]. reflexivity. }
  assert (Hpush : World.datalist w' (Stepper.SDATA this)
                  = World.datalist w (Stepper.SDATA this) ++ [d]).
  { subst w'. rewrite Hdata. data_pushed. }
  split; [exact Hdata|]. split; [exact Hpush|]. split.
  { destruct (results_errors_by_truthiness this w') as [_ ->].
    destruct (results_errors_by_truthiness this w) as [_ He].
    fold r in He. rewrite He, Hpush, map_app, filter_app. f_equal.
    simpl. rewrite filter_cons, filter_nil.
    destruct (truthy (Dataset.error d)) eqn:Ht; case_decide; congruence. }
  split.
  { unfold Stepper.reset, World.new_array, World.new_datalist; simpl.
    apply is_fresh. }
  subst r. unfold Stepper.results.
  destruct (StopClock.summary _ _) as [timing d1]. simpl.
  destruct (StopClock.time _ d1) as [totalTime d2]. split; reflexivity.
Qed.

(** * More on StopClock: series of stops *)

Section StopSeries.
Implicit Types (c : StopClock.t) (d : Date.t) (lbls : list value).

Lemma previous_event_snoc c s :
  previous_event {| StopClock.start := StopClock.start c;
                    StopClock.stops := StopClock.stops c ++ [s] |}
  = Stop.valueOf s.
Proof. unfold previous_event. rewrite last_stop_snoc. reflexivity. Qed.

(** What a series of stops does, in closed form. *)
Lemma stop_all_closed lbls : forall c d,
  stop_all lbls c d
  = (deltas (previous_event c) (Stop.valueOf <$> recorded lbls d),
     {| StopClock.start := StopClock.start c;
        StopClock.stops := StopClock.stops c ++ recorded lbls d |},
     {| Date.wall := Date.wall d;
        Date.ticks := (Date.ticks d + length lbls)%nat |}).
Proof.
  induction lbls as [|lbl lbls IH]; intros c d; simpl.
  - rewrite app_nil_r, Nat.add_0_r. destruct c, d; reflexivity.
  - unfold StopClock.stop, Date.now. simpl. rewrite IH. simpl.
    rewrite previous_event_snoc. simpl.
    unfold recorded. simpl. rewrite Nat.add_0_r.
    assert (Hrec :
      imap (fun i lbl0 =>
              {| Stop.valueOf := Date.wall d (S (Date.ticks d + i))%nat;
                 Stop.label := js_or lbl0 Null |}) lbls
      = imap ((fun i lbl0 =>
                 {| Stop.valueOf := Date.wall d (Date.ticks d + i)%nat;
                    Stop.label := js_or lbl0 Null |}) ∘ S) lbls).
    { apply imap_ext. intros i x _. simpl. do 2 f_equal. lia. }
    rewrite Hrec. rewrite <- app_assoc. simpl.
    replace (S (Date.ticks d + length lbls))%nat
      with (Date.ticks d + S (length lbls))%nat by lia.
    reflexivity.
Qed.

Lemma deltas_sum (vs : list Z) : forall p,
  Zsum (deltas p vs) = default p (last vs) - p.
Proof.
  unfold Zsum.
  induction vs as [|v vs IH]; intros p; simpl.
  - lia.
  - rewrite IH. destruct vs as [|v' vs]; simpl; [lia|].
    destruct (last (v' :: vs)) as [x|] eqn:Hl; simpl; [lia|].
    apply last_None in Hl. discriminate Hl.
Qed.

Lemma length_recorded lbls d : length (recorded lbls d) = length lbls.
Proof. apply length_imap. Qed.
End StopSeries.

(** X1: after a series of [stop] calls that is not empty, the [time] query
    does not read the wall clock any more; it is the time the clock showed
    at the last stop it had before (0 when it had none) plus the sum of the
    values the calls returned. *)
Theorem stops_add_up_to_time (lbls : list value) (c : StopClock.t) (d : Date.t) :
  lbls <> [] ->
  let '(ts, c', _) := stop_all lbls c d in
  forall d', StopClock.time c' d'
             = (previous_event c - StopClock.start c + Zsum ts, d').
Proof.
  intros Hne. rewrite stop_all_closed. intros d'.
  unfold StopClock.time, StopClock.last_stop. simpl.
  rewrite deltas_sum, fmap_last.
  destruct (last (recorded lbls d)) as [s|] eqn:Hlast.
  - rewrite last_app, Hlast. simpl. f_equal. lia.
  - apply last_None in Hlast. apply (f_equal length) in Hlast.
    rewrite length_recorded in Hlast. destruct lbls; [congruence | discriminate].
Qed.

(** X1 on a clock started at 0 with the wall clock of [Example]. *)
Lemma stops_add_up_to_time_example :
  let '(ts, c', _) :=
    stop_all [Str "a"; Undefined; Str "b"]
      {| StopClock.start := 0; StopClock.stops := [] |}
      {| Date.wall := Example.wall; Date.ticks := 0 |} in
  forall d', StopClock.time c' d'
             = (previous_event {| StopClock.start := 0; StopClock.stops := [] |}
                - 0 + Zsum ts, d').
Proof.
  apply (stops_add_up_to_time [Str "a"; Undefined; Str "b"]
           {| StopClock.start := 0; StopClock.stops := [] |}
           {| Date.wall := Example.wall; Date.ticks := 0 |}).
  discriminate.
Defined.

Lemma deltas_lookup (vs : list Z) : forall p i,
  deltas p vs !! i
  = (fun v => v - match i with
                  | O => p
                  | S j => default p (vs !! j)
                  end) <$> vs !! i.
Proof.
  induction vs as [|v vs IH]; intros p i; simpl.
  - reflexivity.
  - destruct i as [|i]; simpl; [reflexivity|].
    rewrite IH. destruct (vs !! i) as [x|] eqn:Hx; simpl; [|reflexivity].
    destruct i as [|i]; simpl; [reflexivity|].
    destruct (vs !! i) as [y|] eqn:Hy; simpl; [reflexivity|].
    apply lookup_ge_None in Hy. apply lookup_lt_Some in Hx. lia.
Qed.

(** The deltas of a summary: 0, then the differences between consecutive
    stops. *)
Lemma summary_deltas (c : StopClock.t) (d : Date.t) :
  StopSummary.delta <$> Summary.stops (fst (StopClock.summary c d))
  = match Stop.valueOf <$> StopClock.stops c with
    | [] => []
    | v :: vs => Fin 0 :: (Fin <$> deltas v vs)
    end.
Proof.
  unfold StopClock.summary.
  destruct (StopClock.time c d) as [total' d1].
  destruct (StopClock.timeSinceStart c d1) as [since d2]. simpl.
  apply list_eq. intros i.
  rewrite list_lookup_fmap, list_lookup_imap.
  destruct (StopClock.stops c) as [|s0 l] eqn:Hl; [reflexivity|].
  destruct i as [|i]; [reflexivity|].
  rewrite fmap_cons. cbv beta iota.
  change ((Fin 0 :: (Fin <$> deltas (Stop.valueOf s0) (Stop.valueOf <$> l))) !! S i)
    with ((Fin <$> deltas (Stop.valueOf s0) (Stop.valueOf <$> l)) !! i).
  change ((s0 :: l) !! S i) with (l !! i).
  rewrite list_lookup_fmap, deltas_lookup, list_lookup_fmap.
  destruct (l !! i) as [s|] eqn:Hs; simpl; [|reflexivity].
  replace (i - 0)%nat with i by lia.
  destruct i as [|i]; simpl; [reflexivity|].
  rewrite list_lookup_fmap.
  destruct (l !! i) as [p|] eqn:Hp; simpl; [reflexivity|].
  apply lookup_ge_None in Hp. apply lookup_lt_Some in Hs. lia.
Qed.

(** X2: on a clock that had no stop, the deltas of the summary are not the
    values the [stop] calls returned: the first one is 0, where [stop]
    returned the time since [start]; the others are the values returned. *)
Theorem summary_deltas_are_returned_but_first
    (lbls : list value) (c : StopClock.t) (d : Date.t) :
  StopClock.stops c = [] ->
  let '(ts, c', _) := stop_all lbls c d in
  forall d',
    StopSummary.delta <$> Summary.stops (fst (StopClock.summary c' d'))
    = match ts with
      | [] => []
      | _ :: rest => Fin 0 :: (Fin <$> rest)
      end
    /\ head ts = (fun s => Stop.valueOf s - StopClock.start c)
                 <$> head (StopClock.stops c').
Proof.
  intros Hc. rewrite stop_all_closed. intros d'.
  rewrite summary_deltas. simpl. rewrite Hc. simpl.
  unfold previous_event, StopClock.last_stop. rewrite Hc. simpl.
  destruct (recorded lbls d) as [|s l]; simpl; split; reflexivity.
Qed.

(** X2 on a clock started at 0 with the wall clock of [Example]. *)
Lemma summary_deltas_are_returned_but_first_example :
  let '(ts, c', _) :=
    stop_all [Str "a"; Undefined; Str "b"]
      {| StopClock.start := 0; StopClock.stops := [] |}
      {| Date.wall := Example.wall; Date.ticks := 0 |} in
  forall d',
    StopSummary.delta <$> Summary.stops (fst (StopClock.summary c' d'))
    = match ts with
      | [] => []
      | _ :: rest => Fin 0 :: (Fin <$> rest)
      end
    /\ head ts = (fun s => Stop.valueOf s - 0) <$> head (StopClock.stops c').
Proof.
  apply (summary_deltas_are_returned_but_first [Str "a"; Undefined; Str "b"]
           {| StopClock.start := 0; StopClock.stops := [] |}
           {| Date.wall := Example.wall; Date.ticks := 0 |}).
  reflexivity.
Defined.

(** * More on StopClock: [findStop] after [stop] *)

Section FindAfterStop.
Variable str_num : string -> number.
Variable to_prim : nat -> value.

Lemma reduce_from_app {A B} (f : B -> nat -> A -> B) (l1 l2 : list A) :
  forall i p,
    StopClock.reduce_from f i (l1 ++ l2) p
    = StopClock.reduce_from f (i + length l1)%nat l2
        (StopClock.reduce_from f i l1 p).
Proof.
  induction l1 as [|x l1 IH]; intros i p; simpl.
  - rewrite Nat.add_0_r. reflexivity.
  - rewrite IH. f_equal. lia.
Qed.

(** Every truthy value is loosely equal to itself. *)
Lemma truthy_loose_eq_refl (v : value) :
  truthy v = true -> loose_eq str_num to_prim v v = true.
Proof.
  destruct v as [| |b|[z| | |]|s|l]; simpl; try discriminate; intros Hv.
  - destruct b; [reflexivity | discriminate].
  - apply Z.eqb_refl.
  - reflexivity.
  - reflexivity.
  - apply String.eqb_refl.
  - apply Nat.eqb_refl.
Qed.

(** [findStop] on a clock with one more stop. *)
Lemma findStop_snoc (lbl : value) (c : StopClock.t) (s : Stop.t) :
  StopClock.findStop str_num to_prim lbl
    {| StopClock.start := StopClock.start c;
       StopClock.stops := StopClock.stops c ++ [s] |}
  = match StopClock.findStop str_num to_prim lbl c with
    | Some f => Some f
    | None =>
      if truthy (Stop.label s) && loose_eq str_num to_prim (Stop.label s) lbl
      then Some {| Found.valueOf := Stop.valueOf s;
                   Found.stop := Stop.valueOf s;
                   Found.start := StopClock.start c;
                   Found.label := Stop.label s;
                   Found.index := length (StopClock.stops c) |}
      else None
    end.
Proof.
  unfold StopClock.findStop. simpl.
  rewrite reduce_from_app. simpl.
  change (StopClock.findStop_step str_num to_prim
            {| StopClock.start := StopClock.start c;
               StopClock.stops := StopClock.stops c ++ [s] |} lbl)
    with (StopClock.findStop_step str_num to_prim c lbl).
  destruct (StopClock.reduce_from _ 0%nat (StopClock.stops c) None) as [f|];
    reflexivity.
Qed.

(** X3: after [stop(lbl')], [findStop(lbl)] returns what it returned before
    when that was a stop; otherwise it returns the new stop, with the
    position it was recorded at and the clock's [start], when [lbl'] is
    truthy and loosely equal to [lbl], and nothing when it is not.  So a
    label found once is found at the same stop for ever, and a second stop
    with that label is never found. *)
Theorem findStop_after_stop (lbl lbl' : value) (c : StopClock.t) (d : Date.t) :
  let '(_, c', _) := StopClock.stop lbl' c d in
  StopClock.findStop str_num to_prim lbl c'
  = match StopClock.findStop str_num to_prim lbl c with
    | Some f => Some f
    | None =>
      if truthy lbl' && loose_eq str_num to_prim lbl' lbl
      then Some {| Found.valueOf := Date.wall d (Date.ticks d);
                   Found.stop := Date.wall d (Date.ticks d);
                   Found.start := StopClock.start c;
                   Found.label := lbl';
                   Found.index := length (StopClock.stops c) |}
      else None
    end.
Proof.
  unfold StopClock.stop, Date.now. rewrite findStop_snoc. simpl.
  destruct (StopClock.findStop str_num to_prim lbl c); [reflexivity|].
  unfold js_or. destruct (truthy lbl') eqn:Ht; simpl.
  - rewrite Ht. reflexivity.
  - reflexivity.
Qed.

(** X4: a label that is truthy and was not found before is found right
    after [stop] was called with it: at the index the stop was recorded at
    (the number of stops there were), with the instant recorded and the
    clock's [start]. *)
Theorem stop_then_findStop (lbl : value) (c : StopClock.t) (d : Date.t) :
  truthy lbl = true ->
  StopClock.findStop str_num to_prim lbl c = None ->
  let '(_, c', _) := StopClock.stop lbl c d in
  exists f,
    StopClock.findStop str_num to_prim lbl c' = Some f
    /\ Found.index f = length (StopClock.stops c)
    /\ StopClock.stops c' !! Found.index f
       = Some {| Stop.valueOf := Found.valueOf f; Stop.label := lbl |}
    /\ Found.label f = lbl
    /\ Found.stop f = Found.valueOf f
    /\ Found.start f = StopClock.start c'.
Proof.
  intros Ht Hnone. unfold StopClock.stop, Date.now. rewrite findStop_snoc.
  rewrite Hnone. simpl. unfold js_or. rewrite Ht. simpl. rewrite Ht.
  rewrite truthy_loose_eq_refl by exact Ht.
  eexists. split; [reflexivity|]. simpl.
  split_and!; try reflexivity.
  rewrite lookup_app_r by lia.
  replace (length (StopClock.stops c) - length (StopClock.stops c))%nat
    with 0%nat by lia.
  reflexivity.
Qed.
End FindAfterStop.

(** X4 on a clock that has an unlabelled stop and one labelled ["a"]. *)
Lemma stop_then_findStop_example :
  let c := {| StopClock.start := 1000;
              StopClock.stops := [{| Stop.valueOf := 1010; Stop.label := Null |};
                                  {| Stop.valueOf := 1020; Stop.label := Str "a" |}] |} in
  let '(_, c', _) :=
    StopClock.stop (Str "b") c {| Date.wall := Example.wall; Date.ticks := 3 |} in
  exists f,
    StopClock.findStop (fun _ => NaN) (fun _ => Undefined) (Str "b") c' = Some f
    /\ Found.index f = length (StopClock.stops c)
    /\ StopClock.stops c' !! Found.index f
       = Some {| Stop.valueOf := Found.valueOf f; Stop.label := Str "b" |}
    /\ Found.label f = Str "b"
    /\ Found.stop f = Found.valueOf f
    /\ Found.start f = StopClock.start c'.
Proof.
  apply (stop_then_findStop (fun _ => NaN) (fun _ => Undefined) (Str "b")
           {| StopClock.start := 1000;
              StopClock.stops := [{| Stop.valueOf := 1010; Stop.label := Null |};
                                  {| Stop.valueOf := 1020; Stop.label := Str "a" |}] |}
           {| Date.wall := Example.wall; Date.ticks := 3 |});
    reflexivity.
Defined.

(** * More on Stepper: what [results] reports *)

(** X5: [hasErrors] is true exactly when [errors] is not empty, and
    [errors] is the list of the truthy errors of the accumulated Datasets,
    in their order: a Dataset whose error is falsy counts for neither. *)
Theorem hasErrors_iff_errors {H} (this : Stepper.t) (w : World.t H) :
  let r := fst (Stepper.results this w) in
  (Results.hasErrors r = true <-> Results.errors r <> [])
  /\ Results.errors r
     = filter (fun e => truthy e = true)
         (Dataset.error <$> World.datalist w (Stepper.SDATA this))
  /\ Forall (fun e => truthy e = true) (Results.errors r).
Proof.
  intros r. destruct (results_errors_by_truthiness this w) as [Hh He].
  fold r in Hh, He. rewrite Hh, He. clear Hh He.
  split; [|split; [reflexivity|]].
  - induction (World.datalist w (Stepper.SDATA this)) as [|d l IH]; simpl.
    + split; [discriminate | intros Hne; exfalso; apply Hne; reflexivity].
    + rewrite filter_cons.
      destruct (truthy (Dataset.error d)) eqn:Ht; case_decide;
        try congruence; simpl.
      * split; [discriminate | reflexivity].
      * exact IH.
  - induction (map Dataset.error (World.datalist w (Stepper.SDATA this)))
      as [|e l IH]; [constructor|].
    rewrite filter_cons. case_decide; [constructor|]; assumption.
Qed.

Section NewEngine.
Context {H : Type}.
Implicit Types (w : World.t H) (this : Stepper.t).

(** What the constructor does to the clocks and to the list of Datasets. *)
Lemma constructor_clock (stepArgs : value) (steps : list (Step.t H)) w :
  let '(this, w') := Stepper.constructor stepArgs steps w in
  Stepper.TTIME this
  = {| StopClock.start := Date.wall (World.date w) (Date.ticks (World.date w));
       StopClock.stops := [] |}
  /\ World.date w'
     = {| Date.wall := Date.wall (World.date w);
          Date.ticks := S (Date.ticks (World.date w)) |}
  /\ Stepper.hasStepped this = false
  /\ World.datalist w' (Stepper.SDATA this) = [].
Proof.
  unfold Stepper.constructor.
  assert (Hdate :
    World.date (match stepArgs with
                | Null | Undefined => World.new_array [] w
                | _ =>
                  match World.isArray w stepArgs with
                  | Some r => (r, w)
                  | None => World.new_array [stepArgs] w
                  end
                end).2 = World.date w).
  { destruct stepArgs; try reflexivity;
      destruct (World.isArray w _); reflexivity. }
  destruct (match stepArgs with
            | Null | Undefined => World.new_array [] w
            | _ => _
            end) as [args w0].
  simpl in Hdate.
  unfold World.new_array, World.new_datalist, World.new_steplist,
    StopClock.create, Date.now. simpl.
  rewrite Hdate. split_and!; try reflexivity.
  unfold World.datalist. simpl. rewrite lookup_insert_eq. reflexivity.
Qed.

(** X6: on an engine that has just been built, [results] answers without
    any run: [stepped] and [hasErrors] are false, [errors] and [data] are
    empty, and the timing has no stop and the sentinel [Infinity].  The
    clock is still running: [timing.total] and [totalTime] are two
    readings of the wall clock, the second made two readings later. *)
Theorem results_of_new_engine (stepArgs : value) (steps : list (Step.t H)) w :
  let '(this, w') := Stepper.constructor stepArgs steps w in
  let r := fst (Stepper.results this w') in
  let wall := Date.wall (World.date w) in
  let t := Date.ticks (World.date w) in
  Results.stepped r = false
  /\ Results.hasErrors r = false
  /\ Results.errors r = []
  /\ World.datalist w' (Results.data r) = []
  /\ Summary.stops (Results.timing r) = []
  /\ Summary.stop (Results.timing r) = inr Infinity
  /\ Summary.total (Results.timing r) = wall (S t) - wall t
  /\ Results.totalTime r = wall (S (S (S t))) - wall t.
Proof.
  pose proof (constructor_clock stepArgs steps w) as Hc.
  destruct (Stepper.constructor stepArgs steps w) as [this w'].
  destruct Hc as (Hclock & Hdate & Hstepped & Hdata).
  unfold Stepper.results. rewrite Hclock, Hdate, Hdata, Hstepped.
  simpl. split_and!; auto.
Qed.
End NewEngine.

(** * More on Stepper: the clocks of a run *)

Section RunClock.
Context {H : Type}.
Variable listeners : Listeners H.
Hypothesis Hfailed : quiet_on STEP_FAILED listeners.

Implicit Types (w : World.t H) (this : Stepper.t) (step : Step.t H).

(** One round of the loop records one unlabelled stop on the run-level
    clock. *)
Lemma turn_clock altContext step this w :
  exists this' w' now,
    Stepper.turn listeners altContext step this w = (None, this', w')
    /\ Stepper.TTIME this'
       = {| StopClock.start := StopClock.start (Stepper.TTIME this);
            StopClock.stops := StopClock.stops (Stepper.TTIME this)
                               ++ [{| Stop.valueOf := now; Stop.label := Null |}] |}.
Proof.
  unfold Stepper.turn, Stepper.try_block, Stepper.Dataset, Stepper.call,
    Stepper.stopclock_reset, Stepper.stopclock_stop, Stepper.TTIME_stop,
    StopClock.create, StopClock.reset, StopClock.stop, Date.now.
  unfold Stepper.emit at 1. simpl.
  destruct (listeners STEP_STARTED _ _ _ _) as [[e0|] h0]; simpl.
  2: destruct (Step.proceed step _ _ _) as [[doIt|e] h1]; simpl.
  2: destruct (truthy doIt); simpl.
  2: destruct (Step.step step _ _ _) as [[r|e] h2]; simpl.
  2, 4: unfold Stepper.emit at 1; simpl;
        destruct (listeners STEP_COMPLETED _ _ _ _) as [[e1|] h3]; simpl.
  all: rewrite ?(emit_failed listeners Hfailed); simpl;
    eexists _, _, _; split; reflexivity.
Qed.

Lemma loop_clock altContext (steps : list (Step.t H)) : forall this w,
  exists this' w' news,
    Stepper.loop listeners altContext steps this w = (None, this', w')
    /\ Stepper.TTIME this'
       = {| StopClock.start := StopClock.start (Stepper.TTIME this);
            StopClock.stops := StopClock.stops (Stepper.TTIME this) ++ news |}
    /\ length news = length steps
    /\ Forall (fun s => Stop.label s = Null) news.
Proof.
  induction steps as [|step steps IH]; intros this w; simpl.
  - exists this, w, []. rewrite app_nil_r. destruct this as [? ? ? ? []].
    split_and!; auto.
  - destruct (turn_clock altContext step this w) as (this1 & w1 & now & Ht & Hc).
    rewrite Ht.
    destruct (IH this1 w1) as (this2 & w2 & news & Hl & Hc2 & Hn & Hall).
    exists this2, w2, ({| Stop.valueOf := now; Stop.label := Null |} :: news).
    rewrite Hc2, Hc. simpl. rewrite <- app_assoc. simpl.
    split_and!; auto.
Qed.

(** X7: every run starts the run-level clock afresh and records one stop
    per step and one more at the end: the timing of the Result has [N + 1]
    stops, none of them labelled, whatever earlier runs recorded; and
    [totalTime] is the [total] of the timing, the time from the start of
    the run to its last stop. *)
Theorem timing_has_a_stop_per_step altContext this w :
  exists r this' w',
    Stepper.startSteppin listeners altContext this w = (inl r, this', w')
    /\ length (Summary.stops (Results.timing r))
       = S (length (World.steplist w (Stepper.STEPS this)))
    /\ Forall (fun e => StopSummary.label e = Null)
              (Summary.stops (Results.timing r))
    /\ Summary.start (Results.timing r)
       = Date.wall (World.date w) (Date.ticks (World.date w))
    /\ Results.totalTime r = Summary.total (Results.timing r)
    /\ exists s, Summary.stop (Results.timing r) = inl s
         /\ Results.totalTime r = Stop.valueOf s - Summary.start (Results.timing r).
Proof.
  unfold Stepper.startSteppin, StopClock.reset, Date.now. simpl.
  match goal with
  | |- context [Stepper.loop listeners altContext ?ss ?t0 ?w0] =>
    destruct (loop_clock altContext ss t0 w0)
      as (this1 & w1 & news & Hl & Hc & Hn & Hall)
  end.
  rewrite Hl. simpl in Hc.
  unfold Stepper.TTIME_stop, StopClock.stop, Date.now. rewrite Hc. simpl.
  unfold Stepper.results, StopClock.summary, StopClock.time,
    StopClock.timeSinceStart, StopClock.last_stop, Date.now. simpl.
  rewrite !last_snoc. simpl.
  eexists _, _, _. split; [reflexivity|]. simpl.
  split_and!.
  - rewrite length_imap, length_app. simpl. rewrite Hn. unfold World.steplist.
    simpl. lia.
  - apply Forall_forall. intros e He.
    apply list_elem_of_lookup in He as [i Hi].
    rewrite list_lookup_imap in Hi.
    destruct ((news ++ _) !! i) as [s|] eqn:Hs; simpl in Hi; [|discriminate].
    injection Hi as <-. simpl.
    apply list_elem_of_lookup_2 in Hs.
    apply elem_of_app in Hs as [Hs | Hs].
    + rewrite Forall_forall in Hall. apply Hall. exact Hs.
    + apply list_elem_of_singleton in Hs. subst s. reflexivity.
  - reflexivity.
  - reflexivity.
  - eexists. split; reflexivity.
Qed.
End RunClock.

(** A property of every turn is a property of every turn of a run. *)
Section Lift.
Context {H : Type}.
Variable listeners : Listeners H.
Variable altContext : value.
Variable P : Step.t H -> Dataset.t H -> list (Obs H) -> Prop.

Hypothesis turn_P : forall step this (w : World.t H),
  exists d seg this' w',
    Stepper.turn listeners altContext step this w = (None, this', w')
    /\ World.datalist w' (Stepper.SDATA this)
       = World.datalist w (Stepper.SDATA this) ++ [d]
    /\ World.trace w' = World.trace w ++ seg
    /\ P step d seg
    /\ Stepper.SDATA this' = Stepper.SDATA this.


End Lift.

Section DatasetClocks.
Context {H : Type}.
Variable listeners : Listeners H.
Hypothesis Hquiet : quiet listeners.



End DatasetClocks.

(** * More on Stepper: the state the steps share *)

Section SharedState.
Context {H : Type}.
Variable listeners : Listeners H.
Hypothesis Hpassive : passive listeners.

Implicit Types (w : World.t H) (this : Stepper.t) (step : Step.t H).

Lemma emit_passive k err step (d : Dataset.t H) w :
  Stepper.emit listeners k err step d w
  = (None, World.set_user (World.user w)
              (World.observe (Emitted k err step d) w)).
Proof. unfold Stepper.emit. simpl. rewrite Hpassive. reflexivity. Qed.

Lemma turn_user altContext step this w :
  exists this' w',
    Stepper.turn listeners altContext step this w = (None, this', w')
    /\ World.user w'
       = after_step (js_or altContext (Obj (Step.self step)))
                    (World.array w (Stepper.BARGS this)) step (World.user w)
    /\ World.arrays w' = World.arrays w
    /\ Stepper.BARGS this' = Stepper.BARGS this.
Proof.
  unfold Stepper.turn, Stepper.try_block, Stepper.Dataset, Stepper.call,
    Stepper.stopclock_reset, Stepper.stopclock_stop, Stepper.TTIME_stop,
    StopClock.create, StopClock.reset, StopClock.stop, Date.now, after_step.
  rewrite !emit_passive. simpl.
  unfold World.array. simpl.
  destruct (Step.proceed step _ _ _) as [[doIt|e] h1]; simpl;
    [destruct (truthy doIt); simpl;
     [destruct (Step.step step _ _ _) as [[r|e] h2]; simpl|]|];
    rewrite !emit_passive; simpl;
    eexists _, _; split_and!; reflexivity.
Qed.

Lemma loop_user altContext (steps : list (Step.t H)) : forall this w,
  exists this' w',
    Stepper.loop listeners altContext steps this w = (None, this', w')
    /\ World.user w'
       = fold_left (fun h step =>
                      after_step (js_or altContext (Obj (Step.self step)))
                                 (World.array w (Stepper.BARGS this)) step h)
                   steps (World.user w)
    /\ World.arrays w' = World.arrays w
    /\ Stepper.BARGS this' = Stepper.BARGS this.
Proof.
  induction steps as [|step steps IH]; intros this w; simpl.
  - exists this, w. split_and!; reflexivity.
  - destruct (turn_user altContext step this w) as (this1 & w1 & Ht & Hu & Ha & Hb).
    rewrite Ht.
    destruct (IH this1 w1) as (this2 & w2 & Hl & Hu2 & Ha2 & Hb2).
    exists this2, w2. split_and!; try congruence.
    rewrite Hu2, Hu. unfold World.array. rewrite Ha, Hb. reflexivity.
Qed.

(** X9: the steps of a run act on one shared state, in order: what the
    guard and the work function of a step did to it is what the next step
    finds, also when the step threw afterwards (nothing is rolled back), and
    a step whose guard returned a falsy value leaves only what its guard
    did.  Every guard and every work function is called with the same
    arguments, the elements of the working Context.  (The listeners are
    taken to leave that state alone.) *)
Theorem steps_share_state altContext this w :
  exists r this' w',
    Stepper.startSteppin listeners altContext this w = (inl r, this', w')
    /\ World.user w'
       = fold_left (fun h step =>
                      after_step (js_or altContext (Obj (Step.self step)))
                                 (World.array w (Stepper.BARGS this)) step h)
                   (World.steplist w (Stepper.STEPS this)) (World.user w).
Proof.
  unfold Stepper.startSteppin.
  destruct (StopClock.reset (Stepper.TTIME this) (World.date w)) as [c0 d0].
  set (this0 := Stepper.set_TTIME c0 this).
  set (w0 := World.set_date d0 w).
  destruct (loop_user altContext (World.steplist w0 (Stepper.STEPS this0)) this0 w0)
    as (this1 & w1 & Hl & Hu & _).
  rewrite Hl.
  unfold Stepper.TTIME_stop.
  destruct (StopClock.stop Undefined (Stepper.TTIME this1) (World.date w1))
    as [[t1 c1] d1].
  unfold Stepper.results.
  destruct (StopClock.summary _ _) as [timing d1'].
  destruct (StopClock.time _ d1') as [totalTime d2].
  eexists _, _, _. split; [reflexivity|]. simpl. exact Hu.
Qed.
End SharedState.

(** * More on Stepper: the arrays a caller can reach *)

Section CallerArrays.
Context {H : Type}.
Implicit Types (w : World.t H) (this : Stepper.t) (step : Step.t H).

Lemma steplist_push (r : nat) step w :
  World.steplist (World.push_step r step w) r = World.steplist w r ++ [step].
Proof.
  unfold World.steplist at 1, World.push_step. simpl.
  rewrite lookup_insert_eq. reflexivity.
Qed.

(** X10: a Step pushed onto the array that the [steps] getter hands out is
    registered: the next run gives every Step there was its Dataset, in
    order, and then one to the pushed Step. *)
Theorem pushed_step_runs (listeners : Listeners H)
    (Hfailed : quiet_on STEP_FAILED listeners) altContext this w step :
  let w1 := World.push_step (Stepper.steps this) step w in
  exists r this' w' ds d,
    Stepper.startSteppin listeners altContext this w1 = (inl r, this', w')
    /\ World.datalist w' (Results.data r)
       = World.datalist w (Stepper.SDATA this) ++ ds ++ [d]
    /\ Dataset.step <$> ds = World.steplist w (Stepper.steps this)
    /\ Dataset.step d = step.
Proof.
  intros w1.
  destruct (startSteppin_shape listeners Hfailed altContext this w1)
    as (r & this' & w' & runs & Hrun & _ & Hdata & Hd & _ & Hall & _).
  unfold w1 in Hall. unfold Stepper.steps in *. rewrite steplist_push in Hall.
  apply Forall2_app_inv_l in Hall as (runs1 & runs2 & Hall1 & Hall2 & ->).
  apply Forall2_cons_inv_l in Hall2 as (run & rest & [Hstep _] & Hnil & ->).
  apply Forall2_nil_inv_l in Hnil as ->.
  exists r, this', w', runs1.*1, run.1.
  split; [exact Hrun|]. rewrite Hdata, Hd. split_and!.
  - rewrite fmap_app. reflexivity.
  - clear -Hall1. induction Hall1 as [|s run' l l' [Hs _] _ IH]; simpl.
    + reflexivity.
    + f_equal; [exact Hs | exact IH].
  - exact Hstep.
Qed.

(** X11: [reset()] does not empty the array of Datasets, it leaves it for
    another one, and it does not touch the run-level clock.  Take a Result
    of an engine that has run, reset the engine, and take a Result again:
    the first Result keeps its Datasets; the second has another array, with
    no Dataset, and [stepped = false], but the [start], the [stops], the
    last [stop] and the [total] of its [timing] and its [totalTime] are
    those of the first, that is, of the last run.  Only [timing.sinceStart]
    differs: each query reads the time once, and it is that reading less
    the start of the run-level clock. *)
Theorem reset_keeps_old_results this w :
  Stepper.SDATA this ∈ dom (World.datalists w) ->
  StopClock.stops (Stepper.TTIME this) <> [] ->
  let '(r, w0) := Stepper.results this w in
  let '(this', w1) := Stepper.reset this w0 in
  let '(r', w2) := Stepper.results this' w1 in
  let clock := Stepper.TTIME this in
  let now := World.date w in
  World.datalist w2 (Results.data r) = World.datalist w (Results.data r)
  /\ Results.data r' <> Results.data r
  /\ World.datalist w2 (Results.data r') = []
  /\ Results.stepped r' = false
  /\ Summary.start (Results.timing r') = Summary.start (Results.timing r)
  /\ Summary.stops (Results.timing r') = Summary.stops (Results.timing r)
  /\ Summary.stop (Results.timing r') = Summary.stop (Results.timing r)
  /\ Summary.total (Results.timing r') = Summary.total (Results.timing r)
  /\ Results.totalTime r' = Results.totalTime r
  /\ Summary.sinceStart (Results.timing r)
     = Date.wall now (Date.ticks now) - StopClock.start clock
  /\ Summary.sinceStart (Results.timing r')
     = Date.wall now (S (Date.ticks now)) - StopClock.start clock.
Proof.
  intros Hin Hran.
  unfold Stepper.results, Stepper.reset, World.new_array, World.new_datalist,
    StopClock.summary, StopClock.timeSinceStart, StopClock.time,
    StopClock.last_stop, Date.now.
  destruct (last (StopClock.stops (Stepper.TTIME this))) as [s|] eqn:Hlast.
  2: { apply last_None in Hlast. contradiction. }
  simpl. rewrite Hlast. simpl.
  set (fresh_ref := fresh (dom (World.datalists w))).
  assert (Hne : fresh_ref <> Stepper.SDATA this).
  { intros Heq. apply (is_fresh (dom (World.datalists w))).
    fold fresh_ref. rewrite Heq. exact Hin. }
  unfold World.datalist. simpl.
  rewrite lookup_insert_ne by exact Hne. rewrite lookup_insert_eq.
  split_and!; auto.
Qed.
End CallerArrays.

(** X11 on the engine of [Example] after its first run. *)
Lemma reset_keeps_old_results_example :
  let '(r, w0) := Stepper.results Example.engine1 Example.world1 in
  let '(this', w1) := Stepper.reset Example.engine1 w0 in
  let '(r', w2) := Stepper.results this' w1 in
  let clock := Stepper.TTIME Example.engine1 in
  let now := World.date Example.world1 in
  World.datalist w2 (Results.data r)
  = World.datalist Example.world1 (Results.data r)
  /\ Results.data r' <> Results.data r
  /\ World.datalist w2 (Results.data r') = []
  /\ Results.stepped r' = false
  /\ Summary.start (Results.timing r') = Summary.start (Results.timing r)
  /\ Summary.stops (Results.timing r') = Summary.stops (Results.timing r)
  /\ Summary.stop (Results.timing r') = Summary.stop (Results.timing r)
  /\ Summary.total (Results.timing r') = Summary.total (Results.timing r)
  /\ Results.totalTime r' = Results.totalTime r
  /\ Summary.sinceStart (Results.timing r)
     = Date.wall now (Date.ticks now) - StopClock.start clock
  /\ Summary.sinceStart (Results.timing r')
     = Date.wall now (S (Date.ticks now)) - StopClock.start clock.
Proof.
  apply (reset_keeps_old_results Example.engine1 Example.world1).
  - apply elem_of_dom. vm_compute. eexists. reflexivity.
  - vm_compute. discriminate.
Defined.

(** X10 on the engine of [Example]: a fourth step is pushed. *)
Lemma pushed_step_runs_example :
  let w1 := World.push_step (Stepper.steps Example.engine) Example.four
              Example.world in
  exists r this' w' ds d,
    Stepper.startSteppin Example.silent Undefined Example.engine w1
    = (inl r, this', w')
    /\ World.datalist w' (Results.data r)
       = World.datalist Example.world (Stepper.SDATA Example.engine) ++ ds ++ [d]
    /\ Dataset.step <$> ds
       = World.steplist Example.world (Stepper.steps Example.engine)
    /\ Dataset.step d = Example.four.
Proof.
  apply (pushed_step_runs Example.silent).
  intros err s d h. reflexivity.
Defined.

Section OriginalContext.
Context {H : Type}.
Implicit Types (w : World.t H) (this : Stepper.t).

(** The engine built on an array: the original Context is that array, the
    working Context another one with its elements. *)
Lemma constructor_on_array (stepArgs : value) (steps : list (Step.t H)) w r :
  World.isArray w stepArgs = Some r ->
  let '(this, w1) := Stepper.constructor stepArgs steps w in
  Stepper.OARGS this = r
  /\ Stepper.BARGS this <> r
  /\ World.arrays w1
     = <[Stepper.BARGS this := World.array w r]> (World.arrays w).
Proof.
  intros Harr. unfold Stepper.constructor.
  pose proof (isArray_Some w stepArgs r Harr) as [-> Hr].
  rewrite Harr.
  unfold World.new_array, World.new_datalist, World.new_steplist,
    StopClock.create, Date.now. simpl.
  split_and!; try reflexivity.
  intros Heq. apply (is_fresh (dom (World.arrays w))). rewrite Heq. exact Hr.
Qed.

(** X12: the engine keeps the caller's array itself as the original
    Context and runs on a copy.  What the caller pushes onto the array
    after the construction does not reach the working Context, which is
    what the steps are called with; [reset()] copies the array as it is
    then, with the pushed element. *)
Theorem original_context_is_the_callers_array
    (stepArgs : value) (steps : list (Step.t H)) w r (x : value) :
  World.isArray w stepArgs = Some r ->
  let '(this, w1) := Stepper.constructor stepArgs steps w in
  let w2 := World.push_value r x w1 in
  World.array w2 (Stepper.BARGS this) = World.array w r
  /\ World.array w2 (Stepper.OARGS this) = World.array w r ++ [x]
  /\ let '(this', w3) := Stepper.reset this w2 in
     World.array w3 (Stepper.BARGS this') = World.array w r ++ [x].
Proof.
  intros Harr.
  pose proof (constructor_on_array stepArgs steps w r Harr) as Hc.
  destruct (Stepper.constructor stepArgs steps w) as [this w1].
  destruct Hc as (Ho & Hb & Ha).
  assert (Hr1 : World.array w1 r = World.array w r).
  { unfold World.array. rewrite Ha, lookup_insert_ne by exact Hb. reflexivity. }
  assert (Hb1 : World.array w1 (Stepper.BARGS this) = World.array w r).
  { unfold World.array at 1. rewrite Ha, lookup_insert_eq. reflexivity. }
  assert (Hb2 : World.array (World.push_value r x w1) (Stepper.BARGS this)
                = World.array w r).
  { rewrite <- Hb1. unfold World.array at 1, World.push_value. simpl.
    rewrite lookup_insert_ne by congruence. reflexivity. }
  assert (Ho2 : World.array (World.push_value r x w1) (Stepper.OARGS this)
                = World.array w r ++ [x]).
  { rewrite Ho. unfold World.array at 1, World.push_value. simpl.
    rewrite lookup_insert_eq. simpl. rewrite Hr1. reflexivity. }
  split; [exact Hb2|]. split; [exact Ho2|].
  unfold Stepper.reset, World.new_array, World.new_datalist. simpl.
  unfold World.array at 1. simpl. rewrite lookup_insert_eq. simpl.
  exact Ho2.
Qed.
End OriginalContext.

(** [Stepper.Step] *)
Section StepFactory.
Context {H : Type}.

Lemma Step_snoc self name (fn : option (Step.fn H)) (l : list (Stepper.Fields (H:=H))) i :
  Stepper.Step self name fn (l ++ [i])
  = Stepper.assign (Stepper.Step self name fn l) i.
Proof. unfold Stepper.Step. rewrite fold_left_app. reflexivity. Qed.

(** X13: [Step(name, stepFunction, ...stepData)] takes every field from the
    last object of [stepData] that sets it, also the name and the work
    function given as arguments; a field that no object sets is the
    argument, or the default: a guard that returns [true], a work function
    that does nothing. *)
Theorem Step_last_fields_win self name (fn : option (Step.fn H))
    (l : list (Stepper.Fields (H:=H))) :
  let step := Stepper.Step self name fn l in
  Step.self step = self
  /\ Step.name step = default name (last (omap Stepper.f_name l))
  /\ Step.proceed step
     = default (fun _ _ h => (Return (Bool true), h))
               (last (omap Stepper.f_proceed l))
  /\ Step.step step
     = default (default (fun _ _ h => (Return Undefined, h)) fn)
               (last (omap Stepper.f_step l)).
Proof.
  induction l as [|i l IH] using rev_ind.
  - simpl. split_and!; reflexivity.
  - rewrite Step_snoc. destruct IH as (Hs & Hn & Hp & Hw).
    simpl. rewrite Hs, Hn, Hp, Hw. rewrite !omap_app. simpl.
    split; [reflexivity|].
    destruct i as [[n|] [p|] [s|]]; simpl;
      rewrite ?last_snoc, ?app_nil_r; split_and!; reflexivity.
Qed.
End StepFactory.

(** * More on Stepper: a listener that throws *)

(** X14: a throw of a listener of the failure notification is not caught.
    When the first step fails in its guard and a listener of [STEP_FAILED]
    throws, [startSteppin] throws that value: the Dataset of the failing
    step is not appended, no later step has its turn, [hasStepped] stays as
    it was. *)
Theorem failed_listener_throw_escapes {H} (listeners : Listeners H)
    altContext this (w : World.t H) step rest :
  quiet_on STEP_STARTED listeners ->
  (forall err s d h, exists e, fst (listeners STEP_FAILED err s d h) = Some e) ->
  (forall t a h, exists g, fst (Step.proceed step t a h) = Throw g) ->
  World.steplist w (Stepper.STEPS this) = step :: rest ->
  exists e this' w' d0 t a g d,
    Stepper.startSteppin listeners altContext this w = (inr e, this', w')
    /\ World.datalist w' (Stepper.SDATA this)
       = World.datalist w (Stepper.SDATA this)
    /\ Stepper.hasStepped this' = Stepper.hasStepped this
    /\ World.trace w'
       = World.trace w ++ [Emitted STEP_STARTED Null step d0;
                           Called Guard step t a (Throw g);
                           Emitted STEP_FAILED g step d]
    /\ Dataset.error d = g
    /\ exists h, fst (listeners STEP_FAILED g step d h) = Some e.
Proof.
  intros Hstarted Hfailed Hguard Hsteps.
  unfold Stepper.startSteppin, StopClock.reset, Date.now. simpl.
  unfold World.steplist in *. simpl. rewrite Hsteps. simpl.
  unfold Stepper.turn, Stepper.try_block, Stepper.Dataset, Stepper.call,
    Stepper.stopclock_reset, Stepper.stopclock_stop, Stepper.TTIME_stop,
    StopClock.create, StopClock.reset, StopClock.stop, Date.now.
  unfold Stepper.emit at 1. simpl.
  match goal with
  | |- context [listeners STEP_STARTED ?a ?b ?c ?h] =>
    pose proof (Hstarted a b c h) as Hs;
    destruct (listeners STEP_STARTED a b c h) as [o h0] eqn:Hl
  end.
  simpl in Hs. subst o. simpl.
  match goal with
  | |- context [Step.proceed step ?t ?a ?h] =>
    destruct (Hguard t a h) as [g Hg];
    destruct (Step.proceed step t a h) as [c h1] eqn:Hp
  end.
  simpl in Hg. subst c. simpl.
  unfold Stepper.emit. simpl.
  match goal with
  | |- context [listeners STEP_FAILED ?a ?b ?c ?h] =>
    destruct (Hfailed a b c h) as [e He];
    destruct (listeners STEP_FAILED a b c h) as [o h2] eqn:Hf
  end.
  simpl in He. subst o. simpl.
  eexists e, _, _, _, _, _, g, _. split; [reflexivity|]. simpl.
  split_and!; try reflexivity.
  all: first [ rewrite <- !app_assoc; reflexivity
             | eexists; rewrite Hf; reflexivity ].
Qed.

(** * The properties above on the engines of [Example] *)

(** X7 on the engine of [Example]. *)
Lemma timing_has_a_stop_per_step_example :
  exists r this' w',
    Stepper.startSteppin Example.silent Undefined Example.engine Example.world
    = (inl r, this', w')
    /\ length (Summary.stops (Results.timing r))
       = S (length (World.steplist Example.world (Stepper.STEPS Example.engine)))
    /\ Forall (fun e => StopSummary.label e = Null)
              (Summary.stops (Results.timing r))
    /\ Summary.start (Results.timing r)
       = Date.wall (World.date Example.world)
           (Date.ticks (World.date Example.world))
    /\ Results.totalTime r = Summary.total (Results.timing r)
    /\ exists s, Summary.stop (Results.timing r) = inl s
         /\ Results.totalTime r
            = Stop.valueOf s - Summary.start (Results.timing r).
Proof.
  apply (timing_has_a_stop_per_step Example.silent).
  intros err s d h. reflexivity.
Defined.


(** X9 on the engine of the test suite: three steps that each add one to
    the counter leave it at three. *)
Lemma steps_share_state_example :
  (exists r this' w',
     Stepper.startSteppin Example.silent Undefined
       (fst Example.test0) (snd Example.test0) = (inl r, this', w')
     /\ World.user w'
        = fold_left (fun h step =>
                       after_step (js_or Undefined (Obj (Step.self step)))
                                  (World.array (snd Example.test0)
                                     (Stepper.BARGS (fst Example.test0)))
                                  step h)
                    (World.steplist (snd Example.test0)
                       (Stepper.STEPS (fst Example.test0)))
                    (World.user (snd Example.test0)))
  /\ fold_left (fun h step =>
                  after_step (js_or Undefined (Obj (Step.self step)))
                             (World.array (snd Example.test0)
                                (Stepper.BARGS (fst Example.test0)))
                             step h)
               (World.steplist (snd Example.test0)
                  (Stepper.STEPS (fst Example.test0)))
               (World.user (snd Example.test0)) = 3.
Proof.
  split; [|vm_compute; reflexivity].
  apply (steps_share_state Example.silent).
  intros k err s d h. reflexivity.
Defined.

(** X12 on an engine built on the caller's array [["app"]]. *)
Lemma original_context_is_the_callers_array_example :
  let '(this, w1) := Example.built3 in
  let w2 := World.push_value (fst Example.with_array) (Str "more") w1 in
  World.array w2 (Stepper.BARGS this)
  = World.array (snd Example.with_array) (fst Example.with_array)
  /\ World.array w2 (Stepper.OARGS this)
     = World.array (snd Example.with_array) (fst Example.with_array)
       ++ [Str "more"]
  /\ let '(this', w3) := Stepper.reset this w2 in
     World.array w3 (Stepper.BARGS this')
     = World.array (snd Example.with_array) (fst Example.with_array)
       ++ [Str "more"].
Proof.
  apply (original_context_is_the_callers_array
           (Obj (fst Example.with_array)) [Example.one]
           (snd Example.with_array) (fst Example.with_array) (Str "more")).
  vm_compute. reflexivity.
Defined.

(** X14 on an engine whose first step throws in its guard, with listeners
    of which the one for [STEP_FAILED] throws. *)
Lemma failed_listener_throw_escapes_example :
  exists e this' w' d0 t a g d,
    Stepper.startSteppin Example.angry Undefined
      (fst Example.built2) (snd Example.built2) = (inr e, this', w')
    /\ World.datalist w' (Stepper.SDATA (fst Example.built2))
       = World.datalist (snd Example.built2) (Stepper.SDATA (fst Example.built2))
    /\ Stepper.hasStepped this' = Stepper.hasStepped (fst Example.built2)
    /\ World.trace w'
       = World.trace (snd Example.built2)
         ++ [Emitted STEP_STARTED Null Example.thrower d0;
             Called Guard Example.thrower t a (Throw g);
             Emitted STEP_FAILED g Example.thrower d]
    /\ Dataset.error d = g
    /\ exists h, fst (Example.angry STEP_FAILED g Example.thrower d h) = Some e.
Proof.
  apply (failed_listener_throw_escapes Example.angry Undefined
           (fst Example.built2) (snd Example.built2)
           Example.thrower [Example.one]).
  - intros err s d h. reflexivity.
  - intros err s d h. eexists. reflexivity.
  - intros t a h. eexists. reflexivity.
  - vm_compute. reflexivity.
Defined.

(** * More on Stepper: the errors of several runs *)

Section ErrorsOfRuns.
Context {H : Type}.
Variable listeners : Listeners H.

Implicit Types (w : World.t H) (this : Stepper.t).

(** The Result that [startSteppin] returns is the one [results] computes
    from the Datasets accumulated when the run ends. *)
Lemma startSteppin_result altContext this w r this' w' :
  Stepper.startSteppin listeners altContext this w = (inl r, this', w') ->
  Results.stepped r = true
  /\ Results.hasErrors r
     = existsb (fun c => truthy (Dataset.error c))
               (World.datalist w' (Results.data r))
  /\ Results.errors r
     = filter (fun e => truthy e = true)
              (Dataset.error <$> World.datalist w' (Results.data r)).
Proof.
  unfold Stepper.startSteppin.
  destruct (StopClock.reset (Stepper.TTIME this) (World.date w)) as [c0 d0].
  destruct (Stepper.loop _ _ _ _ _) as [[[e|] this1] w1]; [discriminate|].
  destruct (Stepper.TTIME_stop this1 w1) as [this2 w2].
  pose proof (results_errors_by_truthiness
                (Stepper.set_hasStepped true this2) w2) as [Hh He].
  unfold Stepper.results in *.
  destruct (StopClock.summary _ _) as [timing d1].
  destruct (StopClock.time _ d1) as [totalTime d2].
  simpl in *. intros [= <- <- <-]. simpl.
  split_and!; [reflexivity | exact Hh | exact He].
Qed.

Hypothesis Hfailed : quiet_on STEP_FAILED listeners.

(** X15: errors are kept from run to run.  The [errors] of the Result of a
    run are the [errors] that [results] reported before the run, followed by
    the truthy errors of the Datasets of this run, in the order of the
    steps; [hasErrors] is true when it was before or when this run has such
    an error.  Only [reset()] forgets them. *)
Theorem errors_accumulate altContext this w :
  exists r this' w' (ds : list (Dataset.t H)),
    Stepper.startSteppin listeners altContext this w = (inl r, this', w')
    /\ World.datalist w' (Results.data r)
       = World.datalist w (Stepper.SDATA this) ++ ds
    /\ Dataset.step <$> ds = World.steplist w (Stepper.STEPS this)
    /\ Results.errors r
       = Results.errors (fst (Stepper.results this w))
         ++ filter (fun e => truthy e = true) (Dataset.error <$> ds)
    /\ Results.hasErrors r
       = Results.hasErrors (fst (Stepper.results this w))
         || existsb (fun c => truthy (Dataset.error c)) ds.
Proof.
  destruct (startSteppin_shape listeners Hfailed altContext this w)
    as (r & this' & w' & runs & Hrun & _ & Hdata & Hd & _ & Hall & _).
  destruct (startSteppin_result altContext this w r this' w' Hrun)
    as (_ & Hh & He).
  destruct (results_errors_by_truthiness this w) as [Hh0 He0].
  exists r, this', w', runs.*1.
  split; [exact Hrun|]. rewrite Hdata in *. rewrite Hd in *.
  split; [reflexivity|]. split.
  { clear -Hall. induction Hall as [|s run l l' [Hs _] _ IH]; simpl.
    - reflexivity.
    - f_equal; [exact Hs | exact IH]. }
  split.
  - rewrite He, He0, fmap_app, filter_app. reflexivity.
  - rewrite Hh, Hh0, existsb_app. reflexivity.
Qed.
End ErrorsOfRuns.

(** X15 on the engine of [Example]. *)
Lemma errors_accumulate_example :
  exists r this' w' (ds : list (Dataset.t Z)),
    Stepper.startSteppin Example.silent Undefined Example.engine1 Example.world1
    = (inl r, this', w')
    /\ World.datalist w' (Results.data r)
       = World.datalist Example.world1 (Stepper.SDATA Example.engine1) ++ ds
    /\ Dataset.step <$> ds
       = World.steplist Example.world1 (Stepper.STEPS Example.engine1)
    /\ Results.errors r
       = Results.errors (fst (Stepper.results Example.engine1 Example.world1))
         ++ filter (fun e => truthy e = true) (Dataset.error <$> ds)
    /\ Results.hasErrors r
       = Results.hasErrors (fst (Stepper.results Example.engine1 Example.world1))
         || existsb (fun c => truthy (Dataset.error c)) ds.
Proof.
  apply (errors_accumulate Example.silent).
  intros err s d h. reflexivity.
Defined.
